(** * ThreeFold Connect authentication provider: a shallow embedding

    This development embeds [auth-provider/synapse_tf_connect.py]
    ([TFConnectAuthProvider]) and states the properties of the
    authentication broker over that embedding.

    Conventions.
    - Timestamps returned by [time.time()] are modelled as integers [Z]
      (seconds); only subtraction and comparison are used by the code.
      An integer is subtracted from a reading after conversion to a
      float, which raises [OverflowError] beyond the range of floats;
      statements that depend on the value of a difference are made for
      integers that floats represent exactly.
    - Python text is modelled by Rocq [string]s, the bytes of its UTF-8
      encoding.  [str.lower] is Unicode-aware and belongs to the standard
      library: it is a parameter [str_lower] of the model.  Statements
      that speak of letter case assume [str_lower_laws], three facts
      about [str.lower]; the examples instantiate the parameter with
      [ascii_lower], what [str.lower] does on ASCII text.
    - Values of type [Any] (JSON claims, session records) are [pyval]s.
    - Values stored in Redis are kept decoded: [json.dumps] followed by
      [json.loads] is the identity on [pyval].
    - Methods of the provider are computations in the monad [M]: a state
      transformer over [World] that may raise a Python exception.  State
      changes made before a [raise] are kept, as in Python.
    - [trace] is ghost state: it records calls to the verifiers, the
      identity provider and the host account store, so that "no call is
      made" can be stated. *)

From Stdlib Require Import ZArith Lia Ascii String.
From stdpp Require Import gmap strings list fin_maps.

Set Warnings "-register-all".

Open Scope string_scope.
Open Scope Z_scope.

(** ** Python values *)

Inductive pyval : Type :=
| PNone
| PBool (b : bool)
| PNum (z : Z)
| PStr (s : string)
| PList (l : list pyval)
| PDict (d : list (string * pyval)).

(** Python truth value ([bool(v)]). *)
Definition truthy (v : pyval) : bool :=
  match v with
  | PNone => false
  | PBool b => b
  | PNum z => negb (z =? 0)
  | PStr s => negb (String.eqb s "")
  | PList l => match l with [] => false | _ => true end
  | PDict d => match d with [] => false | _ => true end
  end.

(** Truth value of an optional string ([None] and [""] are false). *)
Definition truthy_str (o : option string) : bool :=
  match o with
  | Some s => negb (String.eqb s "")
  | None => false
  end.

(** ** Exceptions and results *)

Inductive exn : Type :=
| LoginError (code : Z) (msg errcode : string)
| RequestException
| AttributeError
| TypeError
| IndexError
| ValueError
| OverflowError
| RedisError.

Inductive result (A : Type) : Type :=
| Ok (a : A)
| Raise (e : exn).
Arguments Ok {A} a.
Arguments Raise {A} e.

(** ** Pure helpers on strings and dictionaries *)

(** Lookup in a dictionary literal kept as an association list. *)
Fixpoint assoc (k : string) (d : list (string * pyval)) : option pyval :=
  match d with
  | [] => None
  | (k', v) :: d' => if String.eqb k k' then Some v else assoc k d'
  end.

(** [v.get(k, dflt)]: only dictionaries have a [get] method. *)
Definition py_get (v : pyval) (k : string) (dflt : pyval) : result pyval :=
  match v with
  | PDict d => Ok (default dflt (assoc k d))
  | _ => Raise AttributeError
  end.

(** The receiver of a [str] method must be a string. *)
Definition as_str (v : pyval) : result string :=
  match v with
  | PStr s => Ok s
  | _ => Raise AttributeError
  end.

(** The least magnitude of an integer that has no float: it rounds to
    [2^1024], past the largest double [2^1024 - 2^971]. *)
Definition float_limit : Z := 2 ^ 1024 - 2 ^ 970.

(** Right operand of [time.time() - x]: numbers (and booleans).  The
    integer is converted to a float: "int too large to convert to
    float" is an [OverflowError]. *)
Definition as_number (v : pyval) : result Z :=
  match v with
  | PNum z => if Z.abs z <? float_limit then Ok z else Raise OverflowError
  | PBool b => Ok (if b then 1 else 0)
  | _ => Raise TypeError
  end.

(** Integers that floats represent exactly, with room for the difference
    of two of them. *)
Definition float_exact (z : Z) : Prop := Z.abs z <= 2 ^ 52.

(** [s.replace(a, b)] for one-character [a] and [b]. *)
Fixpoint replace_char (a b : ascii) (s : string) : string :=
  match s with
  | EmptyString => EmptyString
  | String c s' =>
      String (if Ascii.eqb c a then b else c) (replace_char a b s')
  end.

(** The lowering of ASCII text: [A]-[Z] become [a]-[z].  This is what
    [str.lower] does on a string of ASCII characters; it instantiates the
    parameter [str_lower] in the examples and is not used by the model
    itself. *)
Definition ascii_lower_char (c : ascii) : ascii :=
  let n := nat_of_ascii c in
  if ((65 <=? n) && (n <=? 90))%nat then ascii_of_nat (n + 32) else c.

Fixpoint ascii_lower (s : string) : string :=
  match s with
  | EmptyString => EmptyString
  | String c s' => String (ascii_lower_char c) (ascii_lower s')
  end.

(** [s.split(sep)] for a one-character separator. *)
Fixpoint split_on (sep : ascii) (s : string) : list string :=
  match s with
  | EmptyString => [EmptyString]
  | String c s' =>
      if Ascii.eqb c sep then EmptyString :: split_on sep s'
      else match split_on sep s' with
           | x :: xs => String c x :: xs
           | [] => [String c EmptyString]
           end
  end.

(** [l[-1]] and [l[0]] on the result of a split (never empty). *)
Definition last_item (l : list string) : string := default "" (last l).
Definition first_item (l : list string) : string := default "" (head l).

(** The number of bytes that follow the first byte [c] of a character in
    UTF-8: none for ASCII, one to three otherwise. *)
Definition utf8_continuation (c : ascii) : nat :=
  let n := nat_of_ascii c in
  if (n <? 192)%nat then 0%nat
  else if (n <? 224)%nat then 1%nat
  else if (n <? 240)%nat then 2%nat
  else 3%nat.

Fixpoint drop_bytes (n : nat) (s : string) : string :=
  match n, s with
  | S n', String _ s' => drop_bytes n' s'
  | _, _ => s
  end.

(** [s[1:]]: [s] without its first character. *)
Definition drop_first (s : string) : string :=
  match s with
  | EmptyString => EmptyString
  | String c s' => drop_bytes (utf8_continuation c) s'
  end.

(** ** Configuration ([self.tf_config]) *)

Record TfConfig : Type := {
  cfg_session_timeout : option Z;
  cfg_max_login_attempts : option Z;
  cfg_rate_limit_window : option Z;
  cfg_user_cache_ttl : option Z;
  cfg_token_cache_ttl : option Z;
  cfg_allowed_domains : option (list string);
  cfg_server_name : option string
}.

Definition session_timeout (c : TfConfig) : Z := default 3600 (cfg_session_timeout c).
Definition max_login_attempts (c : TfConfig) : Z := default 5 (cfg_max_login_attempts c).
Definition rate_limit_window (c : TfConfig) : Z := default 300 (cfg_rate_limit_window c).
Definition user_cache_ttl (c : TfConfig) : Z := default 1800 (cfg_user_cache_ttl c).
Definition token_cache_ttl (c : TfConfig) : Z := default 3600 (cfg_token_cache_ttl c).
Definition allowed_domains (c : TfConfig) : list string := default [] (cfg_allowed_domains c).
Definition server_name (c : TfConfig) : string := default "matrix.localhost" (cfg_server_name c).

(** ** The world the provider runs in *)

(** The Redis server behind [self.redis_client]: its keys (value and the
    TTL given to [setex]) and a schedule of faults, one entry consumed by
    each command ([true]: the command raises). *)
Record Redis : Type := {
  kv : gmap string (pyval * Z);
  faults : list bool
}.

(** Outcome of [requests.get(.../api/users/me)] for a bearer token.  The
    body is [None] when it is not JSON ([response.json()] raises). *)
Inductive idp_outcome : Type :=
| Response (status : Z) (body : option pyval)
| NetworkError
| OtherError.

(** Modelled from the spec: the host account store (the injected
    capability with [exists], [create] and [set_display_name]); the source
    calls it as [check_user_exists(user_id)],
    [register_user(localpart=...)] and [set_displayname(user_id, name)].
    The host owns the server part of the ids it creates. *)
Record Account : Type := {
  acc_displayname : pyval;
  acc_emails : list pyval;
  acc_password : option string
}.

Record Host : Type := {
  hs_name : string;
  hs_users : list (string * Account)
}.

(** Ghost events. *)
Inductive event : Type :=
| EvVerifyToken (token : string)
| EvVerifySession (session_id : string)
| EvIdpGet (token : string)
| EvCheckUserExists (user_id : string)
| EvRegisterUser (localpart : string)
| EvSetDisplayname (user_id : string).

Record World : Type := {
  tf_config : TfConfig;
  redis_client : option Redis;
  pending_sessions : gmap string pyval;
  rate_limit_cache : gmap string (list Z);
  user_cache : gmap string (pyval * Z);
  account_handler : Host;
  idp : string -> idp_outcome;
  clock : nat -> Z;
  ticks : nat;
  trace : list event
}.

Definition set_redis_client (r : option Redis) (w : World) : World :=
  {| tf_config := tf_config w; redis_client := r;
     pending_sessions := pending_sessions w;
     rate_limit_cache := rate_limit_cache w; user_cache := user_cache w;
     account_handler := account_handler w; idp := idp w;
     clock := clock w; ticks := ticks w; trace := trace w |}.

Definition set_pending_sessions (p : gmap string pyval) (w : World) : World :=
  {| tf_config := tf_config w; redis_client := redis_client w;
     pending_sessions := p;
     rate_limit_cache := rate_limit_cache w; user_cache := user_cache w;
     account_handler := account_handler w; idp := idp w;
     clock := clock w; ticks := ticks w; trace := trace w |}.

Definition set_rate_limit_cache (c : gmap string (list Z)) (w : World) : World :=
  {| tf_config := tf_config w; redis_client := redis_client w;
     pending_sessions := pending_sessions w;
     rate_limit_cache := c; user_cache := user_cache w;
     account_handler := account_handler w; idp := idp w;
     clock := clock w; ticks := ticks w; trace := trace w |}.

Definition set_user_cache (c : gmap string (pyval * Z)) (w : World) : World :=
  {| tf_config := tf_config w; redis_client := redis_client w;
     pending_sessions := pending_sessions w;
     rate_limit_cache := rate_limit_cache w; user_cache := c;
     account_handler := account_handler w; idp := idp w;
     clock := clock w; ticks := ticks w; trace := trace w |}.

Definition set_account_handler (h : Host) (w : World) : World :=
  {| tf_config := tf_config w; redis_client := redis_client w;
     pending_sessions := pending_sessions w;
     rate_limit_cache := rate_limit_cache w; user_cache := user_cache w;
     account_handler := h; idp := idp w;
     clock := clock w; ticks := ticks w; trace := trace w |}.

Definition set_ticks (n : nat) (w : World) : World :=
  {| tf_config := tf_config w; redis_client := redis_client w;
     pending_sessions := pending_sessions w;
     rate_limit_cache := rate_limit_cache w; user_cache := user_cache w;
     account_handler := account_handler w; idp := idp w;
     clock := clock w; ticks := n; trace := trace w |}.

Definition set_trace (t : list event) (w : World) : World :=
  {| tf_config := tf_config w; redis_client := redis_client w;
     pending_sessions := pending_sessions w;
     rate_limit_cache := rate_limit_cache w; user_cache := user_cache w;
     account_handler := account_handler w; idp := idp w;
     clock := clock w; ticks := ticks w; trace := t |}.

(** ** The monad of provider methods *)

Definition M (A : Type) : Type := World -> result A * World.

Definition ret {A} (a : A) : M A := fun w => (Ok a, w).

Definition raise {A} (e : exn) : M A := fun w => (Raise e, w).

Definition bind {A B} (m : M A) (k : A -> M B) : M B :=
  fun w =>
    match m w with
    | (Ok a, w') => k a w'
    | (Raise e, w') => (Raise e, w')
    end.

(** [try: m except Exception as e: h e]. *)
Definition try_except {A} (m : M A) (h : exn -> M A) : M A :=
  fun w =>
    match m w with
    | (Ok a, w') => (Ok a, w')
    | (Raise e, w') => h e w'
    end.

(** A pure computation that may raise. *)
Definition lift {A} (r : result A) : M A := fun w => (r, w).

Notation "'let*' x ':=' m 'in' k" := (bind m (fun x => k))
  (at level 10, x name, m at level 100, k at level 200, only parsing).

(** [time.time()]: the next reading of the clock. *)
Definition time_time : M Z :=
  fun w => (Ok (clock w (ticks w)), set_ticks (S (ticks w)) w).

(** Ghost: append an event to the trace. *)
Definition log_event (e : event) : M unit :=
  fun w => (Ok tt, set_trace (trace w ++ [e]) w).

Definition get_world : M World := fun w => (Ok w, w).

(** ** Redis commands

    Each command first consumes one entry of the fault schedule; a
    command issued without a client is an [AttributeError] (the source
    guards every use with [if self.redis_client]). *)

Definition redis_command {A}
    (op : gmap string (pyval * Z) -> A * gmap string (pyval * Z)) : M A :=
  fun w =>
    match redis_client w with
    | None => (Raise AttributeError, w)
    | Some r =>
        match faults r with
        | true :: fs =>
            (Raise RedisError,
             set_redis_client (Some {| kv := kv r; faults := fs |}) w)
        | _ =>
            let '(a, kv') := op (kv r) in
            (Ok a,
             set_redis_client
               (Some {| kv := kv'; faults := tail (faults r) |}) w)
        end
    end.

(** [redis.get(key)]: the stored value, [None] when the key is missing. *)
Definition redis_get (key : string) : M (option pyval) :=
  redis_command (fun m => (fst <$> m !! key, m)).

(** [redis.setex(key, ttl, value)]. *)
Definition redis_setex (key : string) (ttl : Z) (value : pyval) : M unit :=
  redis_command (fun m => (tt, <[key := (value, ttl)]> m)).

(** [redis.delete(key)]. *)
Definition redis_delete (key : string) : M unit :=
  redis_command (fun m => (tt, delete key m)).

(** ** Host account store (see [Host]) *)

(** Modelled from the spec: the id under which the host creates an
    account, given the localpart it is passed. *)
Definition host_user_id (h : Host) (localpart : string) : string :=
  "@" +:+ localpart +:+ ":" +:+ hs_name h.

(** Modelled from the spec: [account_handler.check_user_exists(user_id)],
    the [exists] of the account store. *)
Definition check_user_exists (user_id : string) : M bool :=
  let* _ := log_event (EvCheckUserExists user_id) in
  let* w := get_world in
  ret (bool_decide (user_id ∈ (hs_users (account_handler w)).*1)).

(** Modelled from the spec: [account_handler.register_user(localpart=...,
    password=..., displayname=..., emails=...)], the [create] of the
    account store.  The store does not itself refuse an id that is taken:
    keeping accounts unique is left to the caller's existence check. *)
Definition register_user (localpart : string) (password : option string)
    (displayname : pyval) (emails : list pyval) : M string :=
  let* _ := log_event (EvRegisterUser localpart) in
  fun w =>
    let h := account_handler w in
    let uid := host_user_id h localpart in
    let acc := {| acc_displayname := displayname; acc_emails := emails;
                  acc_password := password |} in
    (Ok uid,
     set_account_handler
       {| hs_name := hs_name h; hs_users := hs_users h ++ [(uid, acc)] |} w).

Definition rename_account (user_id : string) (name : pyval)
    (u : string * Account) : string * Account :=
  if String.eqb (fst u) user_id
  then (fst u, {| acc_displayname := name; acc_emails := acc_emails (snd u);
                  acc_password := acc_password (snd u) |})
  else u.

(** Modelled from the spec: [account_handler.set_displayname(user_id,
    name)], the [set_display_name] of the account store. *)
Definition set_displayname (user_id : string) (name : pyval) : M unit :=
  let* _ := log_event (EvSetDisplayname user_id) in
  fun w =>
    let h := account_handler w in
    (Ok tt,
     set_account_handler
       {| hs_name := hs_name h;
          hs_users := rename_account user_id name <$> hs_users h |} w).

(** ** Identity provider *)

(** [requests.get(f"{url}/api/users/me", headers=..., timeout=10)]. *)
Definition requests_get (token : string) : M (Z * option pyval) :=
  let* _ := log_event (EvIdpGet token) in
  let* w := get_world in
  match idp w token with
  | Response status body => ret (status, body)
  | NetworkError => raise RequestException
  | OtherError => raise ValueError
  end.

(** [response.json()]. *)
Definition response_json (body : option pyval) : M pyval :=
  match body with
  | Some v => ret v
  | None => raise ValueError
  end.

(** ** The provider, [TFConnectAuthProvider] *)

(** [get_supported_login_types]. *)
Definition get_supported_login_types : list (string * list string) :=
  [("org.threefold.connect", ["tf_connect_token"]);
   ("m.login.password", ["password"])].

(** Entries of [rate_limit_cache] kept by the dictionary comprehension of
    [_check_rate_limit]: those whose last attempt is inside the window. *)
Definition last_attempt_recent (now window : Z) (attempts : list Z) : Prop :=
  match last attempts with
  | Some t => now - t < window
  | None => False
  end.

#[global] Instance last_attempt_recent_dec now window attempts :
  Decision (last_attempt_recent now window attempts).
Proof. unfold last_attempt_recent. destruct (last attempts); apply _. Defined.

(** [_check_rate_limit].  [attempts[-1]] raises [IndexError] on an empty
    list, before [self.rate_limit_cache] is assigned. *)
Definition _check_rate_limit (client_ip : string) : M bool :=
  let* current_time := time_time in
  let* w := get_world in
  let window := rate_limit_window (tf_config w) in
  if decide (map_Forall (fun _ (attempts : list Z) => attempts <> []) (rate_limit_cache w))
  then
    let cache := filter (fun kv : string * list Z =>
                           last_attempt_recent current_time window (snd kv))
                        (rate_limit_cache w) in
    let attempts := default [] (cache !! client_ip) in
    let recent_attempts := filter (fun t => current_time - t < window) attempts in
    fun w0 =>
      (Ok (Z.of_nat (length recent_attempts) <? max_login_attempts (tf_config w)),
       set_rate_limit_cache cache w0)
  else raise IndexError.

(** [_record_failed_attempt]. *)
Definition _record_failed_attempt (client_ip : string) : M unit :=
  let* current_time := time_time in
  fun w =>
    let cache := rate_limit_cache w in
    (Ok tt,
     set_rate_limit_cache
       (<[client_ip := (default [] (cache !! client_ip) ++ [current_time])%list]> cache) w).

(** [_is_user_allowed]; [str_lower] is [str.lower]. *)
Definition _is_user_allowed (str_lower : string -> string) (c : TfConfig)
    (user_info : pyval) : result bool :=
  match allowed_domains c with
  | [] => Ok true
  | _ :: _ =>
      match py_get user_info "email" (PStr "") with
      | Raise e => Raise e
      | Ok email =>
          if negb (truthy email) then Ok false
          else
            match as_str email with
            | Raise e => Raise e
            | Ok s =>
                let domain := str_lower (last_item (split_on "@" s)) in
                Ok (bool_decide (domain ∈ allowed_domains c))
            end
      end
  end.

(** [_map_tf_user_to_matrix]; [str_lower] is [str.lower]. *)
Definition _map_tf_user_to_matrix (str_lower : string -> string) (c : TfConfig)
    (user_info : pyval) : result string :=
  match py_get user_info "username" (PStr "unknown") with
  | Raise e => Raise e
  | Ok fallback =>
      match py_get user_info "doubleName" fallback with
      | Raise e => Raise e
      | Ok username =>
          match as_str username with
          | Raise e => Raise e
          | Ok s =>
              let clean_username :=
                str_lower (replace_char "@" "_" (replace_char "." "_" s)) in
              Ok ("@" +:+ clean_username +:+ ":" +:+ server_name c)
          end
      end
  end.

(** [user_info.get('name', user_info.get('doubleName', 'Unknown'))]. *)
Definition display_name_of (user_info : pyval) : result pyval :=
  match py_get user_info "doubleName" (PStr "Unknown") with
  | Raise e => Raise e
  | Ok fallback => py_get user_info "name" fallback
  end.

(** [[user_info.get('email')] if user_info.get('email') else []]. *)
Definition emails_of (user_info : pyval) : result (list pyval) :=
  match py_get user_info "email" PNone with
  | Raise e => Raise e
  | Ok email => Ok (if truthy email then [email] else [])
  end.

(** [user_id.split(':')[0][1:]]. *)
Definition localpart_of (user_id : string) : string :=
  drop_first (first_item (split_on ":" user_id)).

(** [_ensure_user_exists]; the handler logs and re-raises. *)
Definition _ensure_user_exists (user_id : string) (user_info : pyval) : M unit :=
  try_except
    (let* existing_user := check_user_exists user_id in
     if negb existing_user then
       let* displayname := lift (display_name_of user_info) in
       let* emails := lift (emails_of user_info) in
       let* _ := register_user (localpart_of user_id) None displayname emails in
       ret tt
     else
       let* display_name := lift (display_name_of user_info) in
       set_displayname user_id display_name)
    (fun e => raise e).

(** [_cache_user_info]. *)
Definition _cache_user_info (user_id : string) (user_info : pyval) : M unit :=
  let cache_key := "user:" +:+ user_id in
  let* cached_at := time_time in
  let* w := get_world in
  let fallback : M unit :=
    fun w0 => (Ok tt, set_user_cache (<[user_id := (user_info, cached_at)]> (user_cache w0)) w0) in
  match redis_client w with
  | Some _ =>
      try_except
        (redis_setex cache_key (user_cache_ttl (tf_config w))
           (PDict [("user_info", user_info); ("cached_at", PNum cached_at)]))
        (fun _ => fallback)
  | None => fallback
  end.

(** [_get_session]. *)
Definition _get_session (session_id : string) : M pyval :=
  let from_memory : M pyval :=
    let* w := get_world in
    ret (default PNone (pending_sessions w !! session_id)) in
  let* w := get_world in
  match redis_client w with
  | Some _ =>
      fun w0 =>
        match redis_get ("session:" +:+ session_id) w0 with
        | (Ok session_data, w1) => (Ok (default PNone session_data), w1)
        | (Raise _, w1) => from_memory w1
        end
  | None => from_memory
  end.

(** [_remove_session]. *)
Definition _remove_session (session_id : string) : M unit :=
  let* w := get_world in
  let* _ :=
    match redis_client w with
    | Some _ =>
        try_except (redis_delete ("session:" +:+ session_id)) (fun _ => ret tt)
    | None => ret tt
    end in
  fun w0 =>
    (Ok tt, set_pending_sessions (delete session_id (pending_sessions w0)) w0).

(** [_verify_session]. *)
Definition _verify_session (session_id : string) : M pyval :=
  let* _ := log_event (EvVerifySession session_id) in
  try_except
    (let* session_data := _get_session session_id in
     if negb (truthy session_data) then ret PNone
     else
       let* now := time_time in
       let* created := lift (py_get session_data "created_at" (PNum 0)) in
       let* created_at := lift (as_number created) in
       let* w := get_world in
       if now - created_at >? session_timeout (tf_config w) then
         let* _ := _remove_session session_id in
         ret PNone
       else lift (py_get session_data "user_info" PNone))
    (fun _ => ret PNone).

Section Provider.

(** [str.lower]. *)
Variable str_lower : string -> string.

(** [hashlib.sha256(token.encode()).hexdigest()]. *)
Variable sha256_hexdigest : string -> string.

(** [_get_cached_token]. *)
Definition _get_cached_token (token : string) : M pyval :=
  let cache_key := "token:" +:+ sha256_hexdigest token in
  let* w := get_world in
  match redis_client w with
  | Some _ =>
      try_except
        (let* cached := redis_get cache_key in
         ret (default PNone cached))
        (fun _ => ret PNone)
  | None => ret PNone
  end.

(** [_cache_token]. *)
Definition _cache_token (token : string) (user_info : pyval) : M unit :=
  let cache_key := "token:" +:+ sha256_hexdigest token in
  let* w := get_world in
  let cache_ttl := token_cache_ttl (tf_config w) in
  match redis_client w with
  | Some _ =>
      try_except (redis_setex cache_key cache_ttl user_info) (fun _ => ret tt)
  | None => ret tt
  end.

(** [_verify_tf_token]. *)
Definition _verify_tf_token (token : string) : M pyval :=
  let* _ := log_event (EvVerifyToken token) in
  try_except
    (let* cached_user := _get_cached_token token in
     if truthy cached_user then ret cached_user
     else
       let* response := requests_get token in
       if fst response =? 200 then
         let* user_info := response_json (snd response) in
         let* _ := _cache_token token user_info in
         ret user_info
       else if fst response =? 401 then ret PNone
       else ret PNone)
    (fun _ => ret PNone).

(** [check_auth]. *)
Definition check_auth (username login_type : string)
    (login_dict : gmap string string) : M (option string) :=
  if negb (String.eqb login_type "tf_connect") then ret None
  else
    try_except
      (let client_ip := default "unknown" (login_dict !! "client_ip") in
       let* within_limit := _check_rate_limit client_ip in
       if negb within_limit then
         raise (LoginError 429 "Too many login attempts" "M_LIMIT_EXCEEDED")
       else
         let tf_token := login_dict !! "tf_token" in
         let session_id := login_dict !! "session_id" in
         if negb (truthy_str tf_token) && negb (truthy_str session_id) then
           raise (LoginError 400 "Missing TF Connect token or session ID"
                    "M_MISSING_PARAM")
         else
           let* user_info :=
             if truthy_str tf_token then _verify_tf_token (default "" tf_token)
             else if truthy_str session_id then _verify_session (default "" session_id)
             else raise (LoginError 400 "Invalid authentication parameters"
                           "M_INVALID_PARAM") in
           if negb (truthy user_info) then
             let* _ := _record_failed_attempt client_ip in
             raise (LoginError 401 "Invalid TF Connect credentials" "M_FORBIDDEN")
           else
             let* w := get_world in
             let* allowed :=
               lift (_is_user_allowed str_lower (tf_config w) user_info) in
             if negb allowed then
               raise (LoginError 403 "User not authorized for this service"
                        "M_FORBIDDEN")
             else
               let* matrix_user_id :=
                 lift (_map_tf_user_to_matrix str_lower (tf_config w) user_info) in
               let* _ := _ensure_user_exists matrix_user_id user_info in
               let* _ := _cache_user_info matrix_user_id user_info in
               ret (Some matrix_user_id))
      (fun e =>
         match e with
         | LoginError _ _ _ => raise e
         | _ => raise (LoginError 500 "Authentication failed" "M_UNKNOWN")
         end).

End Provider.

(** ** Vocabulary of the statements *)

(** A computation only ever appends to the ghost trace. *)
Definition trace_extends (w w' : World) : Prop :=
  exists l, trace w' = (trace w ++ l)%list.

Definition appends {A} (m : M A) : Prop :=
  forall w, trace_extends w (snd (m w)).

(** Every stored window is non-empty: established by
    [_record_failed_attempt], kept by [_check_rate_limit]. *)
Definition windows_nonempty (cache : gmap string (list Z)) : Prop :=
  map_Forall (fun _ (attempts : list Z) => attempts <> []) cache.

(** Whether the character [c] occurs in [s]. *)
Fixpoint occurs (c : ascii) (s : string) : bool :=
  match s with
  | EmptyString => false
  | String c' s' => Ascii.eqb c' c || occurs c s'
  end.

(** The name the account id is derived from: [doubleName], else
    [username], else the label ["unknown"]. *)
Definition subject_name_of (d : list (string * pyval)) : pyval :=
  default (default (PStr "unknown") (assoc "username" d)) (assoc "doubleName" d).

(** Whether the next Redis command raises. *)
Definition next_command_fails (r : Redis) : bool :=
  match faults r with
  | true :: _ => true
  | _ => false
  end.

(** The Redis server after one command that left its keys alone. *)
Definition consume_fault (r : Redis) : Redis :=
  {| kv := kv r; faults := tail (faults r) |}.

(** The world after the provider issued one such command, if it has a
    client at all. *)
Definition after_redis_command (w : World) : World :=
  match redis_client w with
  | Some r => set_redis_client (Some (consume_fault r)) w
  | None => w
  end.

(** The record [_get_session] finds for a session id. *)
Definition stored_session (w : World) (session_id : string) : pyval :=
  match redis_client w with
  | Some r =>
      if next_command_fails r
      then default PNone (pending_sessions w !! session_id)
      else default PNone (fst <$> kv r !! ("session:" +:+ session_id))
  | None => default PNone (pending_sessions w !! session_id)
  end.

(** Whether the [redis.delete] issued by [_remove_session] during a
    verification raises: it is the second command, after the [redis.get]
    of [_get_session]. *)
Definition delete_command_fails (w : World) : bool :=
  match redis_client w with
  | Some r => next_command_fails (consume_fault r)
  | None => false
  end.

(** The value [_get_cached_token] finds for a token. *)
Definition cached_token (sha256_hexdigest : string -> string) (w : World)
    (token : string) : pyval :=
  match redis_client w with
  | Some r =>
      if next_command_fails r then PNone
      else default PNone (fst <$> kv r !! ("token:" +:+ sha256_hexdigest token))
  | None => PNone
  end.

(** ** Concrete worlds used in the examples *)

Definition demo_config : TfConfig :=
  {| cfg_session_timeout := None; cfg_max_login_attempts := None;
     cfg_rate_limit_window := None; cfg_user_cache_ttl := None;
     cfg_token_cache_ttl := None;
     cfg_allowed_domains := Some ["allowed.com"];
     cfg_server_name := Some "example.org" |}.

Definition open_config : TfConfig :=
  {| cfg_session_timeout := None; cfg_max_login_attempts := None;
     cfg_rate_limit_window := None; cfg_user_cache_ttl := None;
     cfg_token_cache_ttl := None;
     cfg_allowed_domains := None;
     cfg_server_name := Some "example.org" |}.

Definition jo_doe : pyval :=
  PDict [("doubleName", PStr "Jo.Doe"); ("email", PStr "jo@allowed.com")].

(** The identity provider accepts exactly ["good-token"]. *)
Definition demo_idp (token : string) : idp_outcome :=
  if String.eqb token "good-token" then Response 200 (Some jo_doe)
  else Response 401 None.

(** A provider started without Redis, with empty stores, on the host
    [example.org], at clock reading [now]. *)
Definition demo_world (c : TfConfig) (now : Z) : World :=
  {| tf_config := c; redis_client := None;
     pending_sessions := ∅; rate_limit_cache := ∅; user_cache := ∅;
     account_handler := {| hs_name := "example.org"; hs_users := [] |};
     idp := demo_idp; clock := fun _ => now; ticks := 0; trace := [] |}.

(** A stand-in for the digest in the examples; no result below depends
    on which function it is. *)
Definition demo_digest (token : string) : string := "digest-of-" +:+ token.

Definition demo_session : pyval :=
  PDict [("created_at", PNum 900); ("user_info", jo_doe)].

Definition login_with_token : gmap string string :=
  <["client_ip" := "1.2.3.4"]> (<["tf_token" := "good-token"]> ∅).

Definition login_with_bad_token : gmap string string :=
  <["client_ip" := "1.2.3.4"]> (<["tf_token" := "bad-token"]> ∅).

Definition login_with_both : gmap string string :=
  <["session_id" := "sess-1"]> login_with_token.

Definition login_with_neither : gmap string string :=
  <["client_ip" := "1.2.3.4"]> ∅.

(** [demo_world] with the session ["sess-1"], created at 900, whose
    identity has been delivered. *)
Definition session_world (c : TfConfig) (now : Z) : World :=
  set_pending_sessions (<["sess-1" := demo_session]> ∅) (demo_world c now).

(** A stored session whose [created_at], far in the past, is an integer
    that no float can hold. *)
Definition overflowing_session_world (now : Z) : World :=
  set_pending_sessions
    (<["sess-1" := PDict [("created_at", PNum (- 2 ^ 1024)); ("user_info", jo_doe)]]> ∅)
    (demo_world open_config now).

(** [demo_world] at time 1001 with two attempts on record for one client,
    the first of them long out of the window. *)
Definition stale_world : World :=
  set_rate_limit_cache (<["1.2.3.4" := [0; 1000]]> ∅) (demo_world demo_config 1001).



(** ** Vocabulary of the further properties *)

(** A computation leaves a component of the world as it found it. *)
Definition keeps {A B} (proj : World -> B) (m : M A) : Prop :=
  forall w, proj (snd (m w)) = proj w.

(** A computation maintains an invariant of the world. *)
Definition preserves {A} (I : World -> Prop) (m : M A) : Prop :=
  forall w, I w -> I (snd (m w)).

(** Every exception a computation raises satisfies [P]. *)
Definition raises_only {A} (P : exn -> Prop) (m : M A) : Prop :=
  forall w, match fst (m w) with Raise e => P e | Ok _ => True end.

(** The dispatch of [check_auth] between its two flows. *)
Definition credential_verifier (sha256_hexdigest : string -> string)
    (login_dict : gmap string string) : M pyval :=
  let tf_token := login_dict !! "tf_token" in
  let session_id := login_dict !! "session_id" in
  if truthy_str tf_token then _verify_tf_token sha256_hexdigest (default "" tf_token)
  else if truthy_str session_id then _verify_session (default "" session_id)
  else raise (LoginError 400 "Invalid authentication parameters"
                "M_INVALID_PARAM").

(** The [LoginError]s raised inside the [try] block of [check_auth]. *)
Definition raised_inside (e : exn) : Prop :=
  match e with
  | LoginError code _ _ => code = 429 \/ code = 400 \/ code = 401 \/ code = 403
  | _ => True
  end.

(** The timestamps of a window that lie inside the rate-limit window. *)
Definition recent_attempts (now window : Z) (attempts : list Z) : list Z :=
  filter (fun t => now - t < window) attempts.

(** The name an account is given: [name], else [doubleName], else the
    placeholder ["Unknown"]. *)
Definition display_name (d : list (string * pyval)) : pyval :=
  default (default (PStr "Unknown") (assoc "doubleName" d)) (assoc "name" d).

(** The cleaning [_map_tf_user_to_matrix] applies to a name. *)
Definition clean_username (str_lower : string -> string) (name : string) : string :=
  str_lower (replace_char "@" "_" (replace_char "." "_" name)).

(** What the statements about letter case use of [str.lower]: the case
    of the ASCII letters of its argument does not change its result, its
    result holds no upper-case ASCII letter, and it neither adds nor
    removes a ['.'], ['@'] or [':']. *)
Record str_lower_laws (str_lower : string -> string) : Prop := {
  lower_ascii_case : forall s, str_lower (ascii_lower s) = str_lower s;
  lower_no_upper : forall s, ascii_lower (str_lower s) = str_lower s;
  lower_separators :
    forall a s, a = "."%char \/ a = "@"%char \/ a = ":"%char ->
                occurs a (str_lower s) = occurs a s
}.

(** A configuration that admits the domain [other.com] only. *)
Definition other_config : TfConfig :=
  {| cfg_session_timeout := None; cfg_max_login_attempts := None;
     cfg_rate_limit_window := None; cfg_user_cache_ttl := None;
     cfg_token_cache_ttl := None;
     cfg_allowed_domains := Some ["other.com"];
     cfg_server_name := Some "example.org" |}.

(** A configuration whose limit of attempts is zero. *)
Definition locked_config : TfConfig :=
  {| cfg_session_timeout := None; cfg_max_login_attempts := Some 0;
     cfg_rate_limit_window := None; cfg_user_cache_ttl := None;
     cfg_token_cache_ttl := None;
     cfg_allowed_domains := None;
     cfg_server_name := Some "example.org" |}.

Definition login_with_session : gmap string string :=
  <["client_ip" := "1.2.3.4"]> (<["session_id" := "sess-1"]> ∅).

(** [demo_world] with a session whose delivered identity is a JSON list
    rather than an object. *)
Definition list_identity_world : World :=
  set_pending_sessions
    (<["sess-1" := PDict [("created_at", PNum 900);
                          ("user_info", PList [PStr "Jo.Doe"])]]> ∅)
    (demo_world open_config 1000).

(** [demo_world] with a Redis server that answers every command. *)
Definition redis_world : World :=
  set_redis_client (Some {| kv := ∅; faults := [] |}) (demo_world demo_config 1000).

(** [demo_world] with a Redis server whose next command fails. *)
Definition failing_redis_world : World :=
  set_redis_client (Some {| kv := ∅; faults := [true] |})
    (demo_world demo_config 1000).

(** [stale_world] a thousand seconds later. *)
Definition expired_window_world : World :=
  set_rate_limit_cache (<["1.2.3.4" := [0; 1000]]> ∅) (demo_world demo_config 2000).

(** [stale_world] with a second client on record. *)
Definition two_client_world : World :=
  set_rate_limit_cache
    (<["5.6.7.8" := [990; 995; 996; 997; 998; 999]]> (rate_limit_cache stale_world))
    stale_world.

(** [demo_world] in which Jo Doe already has an account, with a
    password and an outdated display name. *)
Definition returning_user_world : World :=
  set_account_handler
    {| hs_name := "example.org";
       hs_users :=
         [("@al_ice:example.org",
           {| acc_displayname := PStr "Al"; acc_emails := [];
              acc_password := None |});
          ("@jo_doe:example.org",
           {| acc_displayname := PStr "Old name";
              acc_emails := [PStr "jo@old.example"];
              acc_password := Some "secret" |})] |}
    (demo_world demo_config 1000).


(** * Properties *)

(** ** Running the monad *)

Ltac run :=
  unfold bind, ret, raise, lift, try_except, get_world, time_time, log_event;
  cbn [fst snd tf_config redis_client pending_sessions rate_limit_cache
       user_cache account_handler idp clock ticks trace
       set_redis_client set_pending_sessions set_rate_limit_cache
       set_user_cache set_account_handler set_ticks set_trace].

Lemma trace_extends_refl w : trace_extends w w.
Proof. exists []. symmetry. apply app_nil_r. Qed.

Lemma trace_extends_trans w1 w2 w3 :
  trace_extends w1 w2 -> trace_extends w2 w3 -> trace_extends w1 w3.
Proof.
  intros [l1 H1] [l2 H2]. exists (l1 ++ l2)%list.
  rewrite H2, H1. symmetry. apply app_assoc.
Qed.

Lemma appends_frame {A} (f : World -> result A * World) :
  (forall w, trace (snd (f w)) = trace w) -> appends f.
Proof. intros H w. exists []. rewrite H. symmetry. apply app_nil_r. Qed.

Lemma appends_ret {A} (a : A) : appends (ret a).
Proof. intros w. apply trace_extends_refl. Qed.

Lemma appends_raise {A} e : appends (@raise A e).
Proof. intros w. apply trace_extends_refl. Qed.

Lemma appends_lift {A} (r : result A) : appends (lift r).
Proof. intros w. apply trace_extends_refl. Qed.

Lemma appends_get_world : appends get_world.
Proof. intros w. apply trace_extends_refl. Qed.

Lemma appends_time_time : appends time_time.
Proof. apply appends_frame. reflexivity. Qed.

Lemma appends_log_event e : appends (log_event e).
Proof. intros w. exists [e]. reflexivity. Qed.

Lemma appends_bind {A B} (m : M A) (k : A -> M B) :
  appends m -> (forall a, appends (k a)) -> appends (bind m k).
Proof.
  intros Hm Hk w. unfold bind. specialize (Hm w).
  destruct (m w) as [[a|e] w1]; cbn [snd] in *; [|exact Hm].
  eapply trace_extends_trans; [exact Hm | apply Hk].
Qed.

Lemma appends_try_except {A} (m : M A) (h : exn -> M A) :
  appends m -> (forall e, appends (h e)) -> appends (try_except m h).
Proof.
  intros Hm Hh w. unfold try_except. specialize (Hm w).
  destruct (m w) as [[a|e] w1]; cbn [snd] in *; [exact Hm|].
  eapply trace_extends_trans; [exact Hm | apply Hh].
Qed.

Lemma appends_redis_command {A} op : appends (@redis_command A op).
Proof.
  intros w. unfold redis_command.
  destruct (redis_client w) as [r|]; [|apply trace_extends_refl].
  destruct (faults r) as [|[] fs]; try destruct (op (kv r));
    exists []; symmetry; apply app_nil_r.
Qed.

Lemma appends_redis_get k : appends (redis_get k).
Proof. apply appends_redis_command. Qed.

Lemma appends_redis_setex k ttl v : appends (redis_setex k ttl v).
Proof. apply appends_redis_command. Qed.

Lemma appends_redis_delete k : appends (redis_delete k).
Proof. apply appends_redis_command. Qed.

Create HintDb appends.
#[export] Hint Resolve appends_ret appends_raise appends_lift appends_get_world
  appends_time_time appends_log_event appends_redis_command
  appends_redis_get appends_redis_setex appends_redis_delete : appends.

Ltac appends_step :=
  first [ solve [auto with appends]
        | progress cbv zeta
        | apply appends_bind; [|intros ?]
        | apply appends_try_except; [|intros ?]
        | match goal with
          | |- appends (if ?b then _ else _) => destruct b
          | |- appends (match ?x with _ => _ end) => destruct x
          end ].

Ltac appends_tac := repeat appends_step.

Lemma appends_check_user_exists uid : appends (check_user_exists uid).
Proof. unfold check_user_exists. appends_tac. Qed.

Lemma appends_register_user lp pw dn em : appends (register_user lp pw dn em).
Proof.
  unfold register_user. apply appends_bind; [auto with appends|].
  intros _. apply appends_frame. reflexivity.
Qed.

Lemma appends_set_displayname uid dn : appends (set_displayname uid dn).
Proof.
  unfold set_displayname. apply appends_bind; [auto with appends|].
  intros _. apply appends_frame. reflexivity.
Qed.

Lemma appends_requests_get tok : appends (requests_get tok).
Proof. unfold requests_get. appends_tac. Qed.

Lemma appends_response_json b : appends (response_json b).
Proof. unfold response_json. appends_tac. Qed.

#[export] Hint Resolve appends_check_user_exists appends_register_user
  appends_set_displayname appends_requests_get appends_response_json : appends.

Lemma appends_ensure_user_exists uid ui : appends (_ensure_user_exists uid ui).
Proof. unfold _ensure_user_exists. appends_tac. Qed.

Lemma appends_cache_user_info uid ui : appends (_cache_user_info uid ui).
Proof.
  unfold _cache_user_info. appends_tac; apply appends_frame; reflexivity.
Qed.

Lemma appends_record_failed_attempt ip : appends (_record_failed_attempt ip).
Proof.
  unfold _record_failed_attempt.
  appends_tac; apply appends_frame; reflexivity.
Qed.

#[export] Hint Resolve appends_ensure_user_exists appends_cache_user_info
  appends_record_failed_attempt : appends.

(** ** Rate limiter *)

Lemma check_rate_limit_run w ip :
  _check_rate_limit ip w =
    let now := clock w (ticks w) in
    let window := rate_limit_window (tf_config w) in
    if decide (windows_nonempty (rate_limit_cache w)) then
      let cache :=
        filter (fun kv : string * list Z => last_attempt_recent now window (snd kv))
          (rate_limit_cache w) in
      (Ok (Z.of_nat (length (filter (fun t => now - t < window)
                               (default [] (cache !! ip))))
           <? max_login_attempts (tf_config w)),
       set_rate_limit_cache cache (set_ticks (S (ticks w)) w))
    else (Raise IndexError, set_ticks (S (ticks w)) w).
Proof.
  unfold _check_rate_limit, windows_nonempty. run.
  destruct (decide _); reflexivity.
Qed.

Lemma check_rate_limit_trace w ip :
  trace (snd (_check_rate_limit ip w)) = trace w.
Proof.
  rewrite check_rate_limit_run. cbn zeta.
  destruct (decide _); reflexivity.
Qed.

Lemma record_failed_attempt_run w ip :
  _record_failed_attempt ip w =
    (Ok tt,
     set_rate_limit_cache
       (<[ip := (default [] (rate_limit_cache w !! ip) ++ [clock w (ticks w)])%list]>
          (rate_limit_cache w))
       (set_ticks (S (ticks w)) w)).
Proof. reflexivity. Qed.

(** A recorded failure is the last entry of the client's window. *)
Lemma record_failed_attempt_appends w ip :
  rate_limit_cache (snd (_record_failed_attempt ip w)) !! ip
  = Some (default [] (rate_limit_cache w !! ip) ++ [clock w (ticks w)])%list.
Proof. rewrite record_failed_attempt_run. cbn. apply lookup_insert_eq. Qed.

Lemma record_failed_attempt_nonempty w ip :
  windows_nonempty (rate_limit_cache w) ->
  windows_nonempty (rate_limit_cache (snd (_record_failed_attempt ip w))).
Proof.
  intros H. rewrite record_failed_attempt_run. cbn.
  apply map_Forall_insert_2; [|exact H].
  destruct (default [] (rate_limit_cache w !! ip)); discriminate.
Qed.

Lemma check_rate_limit_nonempty w ip :
  windows_nonempty (rate_limit_cache w) ->
  windows_nonempty (rate_limit_cache (snd (_check_rate_limit ip w))).
Proof.
  intros H. rewrite check_rate_limit_run. cbn zeta.
  destruct (decide _); [|exact H]. cbn.
  intros k l Hl. apply map_lookup_filter_Some in Hl as [Hl _].
  exact (H k l Hl).
Qed.





(** C4 (as amended).  After an evaluation of the limiter that returns,
    every client still stored has its most recent attempt inside the
    window, and its list is the one stored before, kept whole: clients
    whose last attempt is out of the window are dropped, clients whose
    last attempt is recent are all kept, and the verdict counts only the
    timestamps inside the window. *)
Theorem check_rate_limit_keeps_recent_clients w ip b w' :
  _check_rate_limit ip w = (Ok b, w') ->
  let now := clock w (ticks w) in
  let window := rate_limit_window (tf_config w) in
  (forall (k : string) (l : list Z), rate_limit_cache w' !! k = Some l ->
     rate_limit_cache w !! k = Some l /\
     exists t, last l = Some t /\ now - t < window) /\
  (forall (k : string) (l : list Z), rate_limit_cache w !! k = Some l ->
     last_attempt_recent now window l -> rate_limit_cache w' !! k = Some l) /\
  b = (Z.of_nat (length (filter (fun t => now - t < window)
                           (default [] (rate_limit_cache w' !! ip))))
       <? max_login_attempts (tf_config w)).
Proof.
  rewrite check_rate_limit_run. cbn zeta.
  destruct (decide _) as [_|_]; [|discriminate].
  intros [= <- <-]. cbn [rate_limit_cache set_rate_limit_cache].
  split; [|split; [|reflexivity]].
  - intros k l Hl. apply map_lookup_filter_Some in Hl as [Hl Hrecent].
    split; [exact Hl|]. unfold last_attempt_recent in Hrecent. cbn [snd] in Hrecent.
    destruct (last l) as [t|]; [eauto | contradiction].
  - intros k l Hl Hrecent. apply map_lookup_filter_Some. by split.
Qed.

Section Orchestrator.

Variable str_lower : string -> string.
Variable sha256_hexdigest : string -> string.

(** C10.  A login whose type is not the literal ["tf_connect"] is declined
    at once: [check_auth] returns [None] and leaves the whole world as it
    was, so there is no rate-limit check or record, no verifier call and
    no account creation or update.  This covers ["org.threefold.connect"],
    the only ThreeFold type that [get_supported_login_types] advertises. *)
Theorem check_auth_other_login_type w username login_type login_dict :
  login_type <> "tf_connect" ->
  check_auth str_lower sha256_hexdigest username login_type login_dict w = (Ok None, w).
Proof.
  intros H. unfold check_auth.
  destruct (String.eqb_spec login_type "tf_connect"); [contradiction | reflexivity].
Qed.


Lemma try_bind_run {A B} (m : M A) (k : A -> M B) h w a w1 :
  m w = (Ok a, w1) -> try_except (bind m k) h w = try_except (k a) h w1.
Proof. intros E. unfold try_except, bind. by rewrite E. Qed.

Lemma logged_then_appends {A B} ev (m : M A) (k : A -> M B) h w :
  appends m -> (forall a, appends (k a)) -> (forall e, appends (h e)) ->
  exists rest,
    trace (snd (try_except (bind (bind (log_event ev) (fun _ => m)) k) h w))
    = (trace w ++ ev :: rest)%list.
Proof.
  intros Hm Hk Hh.
  assert (Happ : appends (try_except (bind m k) h))
    by (apply appends_try_except; [apply appends_bind|]; assumption).
  destruct (Happ (set_trace (trace w ++ [ev]) w)) as [rest Hrest].
  exists rest. cbn [trace set_trace] in Hrest.
  rewrite <- app_assoc in Hrest. exact Hrest.
Qed.

Lemma appends_get_cached_token tok : appends (_get_cached_token sha256_hexdigest tok).
Proof. unfold _get_cached_token. appends_tac. Qed.

Lemma appends_cache_token tok ui : appends (_cache_token sha256_hexdigest tok ui).
Proof. unfold _cache_token. appends_tac. Qed.

#[local] Hint Resolve appends_get_cached_token appends_cache_token : appends.


(** C1 (as amended).  For a ["tf_connect"] login that passes the rate
    check: when neither [tf_token] nor [session_id] is supplied (missing
    or empty) the result is [LoginError 400] and no verifier is called;
    when [tf_token] is supplied the token verifier is called and
    [session_id] plays no part, so a login that supplies both behaves
    exactly as the same login without [session_id]. *)
Theorem check_auth_required_parameters w username login_dict :
  let client_ip := default "unknown" (login_dict !! "client_ip") in
  fst (_check_rate_limit client_ip w) = Ok true ->
  (truthy_str (login_dict !! "tf_token") = false ->
   truthy_str (login_dict !! "session_id") = false ->
   exists w',
     check_auth str_lower sha256_hexdigest username "tf_connect" login_dict w
     = (Raise (LoginError 400 "Missing TF Connect token or session ID"
                 "M_MISSING_PARAM"), w') /\
     trace w' = trace w) /\
  (forall token,
     login_dict !! "tf_token" = Some token -> token <> "" ->
     check_auth str_lower sha256_hexdigest username "tf_connect" login_dict w
     = check_auth str_lower sha256_hexdigest username "tf_connect"
         (delete "session_id" login_dict) w /\
     exists rest,
       trace (snd (check_auth str_lower sha256_hexdigest username "tf_connect" login_dict w))
       = (trace w ++ EvVerifyToken token :: rest)%list).
Proof.
  intros client_ip Hrate.
  pose proof (check_rate_limit_trace w client_ip) as Ht.
  destruct (_check_rate_limit client_ip w) as [r w1] eqn:E.
  cbn [fst snd] in Hrate, Ht. subst r.
  split.
  - intros Htok Hsid. exists w1. split; [|exact Ht].
    unfold check_auth. cbn [String.eqb Ascii.eqb Bool.eqb negb].
    fold client_ip. rewrite (try_bind_run _ _ _ _ _ _ E).
    cbn [negb]. rewrite Htok, Hsid. reflexivity.
  - intros token Htok Hne.
    assert (Htruthy : truthy_str (Some token) = true).
    { cbn. destruct (String.eqb_spec token ""); [contradiction | reflexivity]. }
    split.
    + unfold check_auth. cbn [String.eqb Ascii.eqb Bool.eqb negb].
      rewrite !lookup_delete_ne by discriminate. rewrite lookup_delete_eq.
      fold client_ip. rewrite !(try_bind_run _ _ _ _ _ _ E).
      cbn [negb]. rewrite Htok, Htruthy. reflexivity.
    + unfold check_auth. cbn [String.eqb Ascii.eqb Bool.eqb negb].
      fold client_ip. rewrite (try_bind_run _ _ _ _ _ _ E).
      cbn [negb]. rewrite Htok, Htruthy. cbn [negb andb from_option id].
      unfold _verify_tf_token. rewrite <- Ht.
      apply logged_then_appends; [| intros ? | intros []]; appends_tac.
Qed.

End Orchestrator.

(** ** Identity mapper *)

Lemma split_on_nonempty sep s : split_on sep s <> [].
Proof.
  destruct s as [|c s]; cbn; [discriminate|].
  destruct (Ascii.eqb c sep); [discriminate|].
  destruct (split_on sep s); discriminate.
Qed.

Lemma split_on_absent sep s : occurs sep s = false -> split_on sep s = [s].
Proof.
  induction s as [|c s IH]; cbn; [reflexivity|].
  intros H. apply orb_false_iff in H as [Hc Hs].
  rewrite Hc, (IH Hs). reflexivity.
Qed.

Lemma last_cons_nonempty {A} (x : A) (l : list A) : l <> [] -> last (x :: l) = last l.
Proof. destruct l; [contradiction | reflexivity]. Qed.

(** [s.split('@')[-1]] is what follows the last ['@']. *)
Lemma last_item_split_on sep (pre suf : string) :
  occurs sep suf = false ->
  last_item (split_on sep (pre +:+ String sep suf)) = suf.
Proof.
  intros Hsuf. unfold last_item.
  induction pre as [|c pre IH]; simpl.
  - rewrite Ascii.eqb_refl, (split_on_absent _ _ Hsuf). reflexivity.
  - destruct (Ascii.eqb c sep).
    + rewrite last_cons_nonempty by apply split_on_nonempty. exact IH.
    + destruct (split_on sep (pre +:+ String sep suf)) as [|x xs] eqn:E.
      * by apply split_on_nonempty in E.
      * destruct xs; [|exact IH]. cbn in *.
        (* a single piece would contain the separator *)
        exfalso. clear IH.
        assert (Hlen : forall s, (1 < length (split_on sep (s +:+ String sep suf)))%nat).
        { clear. induction s as [|c' s IH]; simpl.
          - rewrite Ascii.eqb_refl. cbn. pose proof (split_on_nonempty sep suf).
            destruct (split_on sep suf); [contradiction | cbn; lia].
          - destruct (Ascii.eqb c' sep); [cbn; lia|].
            destruct (split_on sep (s +:+ String sep suf)); cbn in *; lia. }
        specialize (Hlen pre). rewrite E in Hlen. cbn in Hlen. lia.
Qed.

(** C6 (as amended).  For every identity whose name -- [doubleName] if
    present, else [username] if present, else the label ["unknown"] -- is
    a string, [_map_tf_user_to_matrix] returns exactly one account id: that
    name with every ['.'] and ['@'] replaced by ['_'], lowercased by
    [str.lower], and composed as [@name:server_name].  The result is a
    function of the identity and the configuration alone (no state is
    read). *)
Theorem map_tf_user_to_matrix_spec (str_lower : string -> string) c
    (d : list (string * pyval)) (name : string) :
  subject_name_of d = PStr name ->
  _map_tf_user_to_matrix str_lower c (PDict d)
  = Ok ("@" +:+ str_lower (replace_char "@" "_" (replace_char "." "_" name))
        +:+ ":" +:+ server_name c).
Proof.
  unfold subject_name_of, _map_tf_user_to_matrix. cbn [py_get].
  intros ->. reflexivity.
Qed.

(** C7 (as amended).  The domain gate lets every identity through when
    [allowed_domains] is empty.  Otherwise, for an identity that is an
    object: a missing or falsy email is rejected; an email that is a
    non-empty string is admitted exactly when its domain, lowercased by
    [str.lower], is a member of [allowed_domains], the domain being the
    text after the last ['@'] and the whole address when it has no
    ['@']; an email that is truthy but not a string raises
    [AttributeError].  An identity that is not an object raises
    [AttributeError] as well. *)
Theorem is_user_allowed_spec (str_lower : string -> string) c :
  (allowed_domains c = [] ->
   forall user_info, _is_user_allowed str_lower c user_info = Ok true) /\
  (allowed_domains c <> [] ->
   (forall user_info, (forall d, user_info <> PDict d) ->
      _is_user_allowed str_lower c user_info = Raise AttributeError) /\
   (forall d : list (string * pyval),
      let email := default (PStr "") (assoc "email" d) in
      (truthy email = false ->
       _is_user_allowed str_lower c (PDict d) = Ok false) /\
      (truthy email = true -> (forall e, email <> PStr e) ->
       _is_user_allowed str_lower c (PDict d) = Raise AttributeError) /\
      (forall e, email = PStr e -> e <> "" ->
         _is_user_allowed str_lower c (PDict d)
         = Ok (bool_decide
                 (str_lower (last_item (split_on "@" e)) ∈ allowed_domains c)) /\
         (forall pre domain,
            e = pre +:+ String "@" domain -> occurs "@" domain = false ->
            last_item (split_on "@" e) = domain) /\
         (occurs "@" e = false -> last_item (split_on "@" e) = e)))).
Proof.
  unfold _is_user_allowed. split.
  - intros -> ?. reflexivity.
  - intros Hne. destruct (allowed_domains c) as [|a l] eqn:Ha; [contradiction|].
    split.
    + intros user_info Hnd.
      destruct user_info as [| | | | |d]; try reflexivity. by destruct (Hnd d).
    + intros d. cbv zeta. cbn [py_get].
      set (email := default (PStr "") (assoc "email" d)). split; [|split].
      * intros ->. reflexivity.
      * intros -> Hns. cbn [negb].
        destruct email as [| | |e| |]; try reflexivity. by destruct (Hns e).
      * intros e -> He. cbn [truthy as_str].
        destruct (String.eqb_spec e ""); [contradiction|]. cbn [negb].
        split; [reflexivity|]. split.
        -- intros pre domain -> Hdom. by apply last_item_split_on.
        -- intros Hat. by rewrite split_on_absent.
Qed.

(** ** Session verifier and cache store *)

Lemma redis_get_run w r key :
  redis_client w = Some r ->
  redis_get key w =
    (if next_command_fails r then Raise RedisError else Ok (fst <$> kv r !! key),
     after_redis_command w).
Proof.
  intros Hr. unfold redis_get, redis_command, after_redis_command, next_command_fails,
    consume_fault.
  rewrite Hr. destruct (faults r) as [|[] fs]; reflexivity.
Qed.

Lemma redis_delete_run w r key :
  redis_client w = Some r ->
  redis_delete key w =
    (if next_command_fails r then Raise RedisError else Ok tt,
     set_redis_client
       (Some {| kv := if next_command_fails r then kv r else delete key (kv r);
                faults := tail (faults r) |}) w).
Proof.
  intros Hr. unfold redis_delete, redis_command, next_command_fails.
  rewrite Hr. destruct (faults r) as [|[] fs]; reflexivity.
Qed.

Lemma get_session_run w sid :
  _get_session sid w = (Ok (stored_session w sid), after_redis_command w).
Proof.
  unfold _get_session, stored_session. run.
  destruct (redis_client w) as [r|] eqn:Hr; [|unfold after_redis_command; by rewrite Hr].
  rewrite (redis_get_run w r _ Hr).
  destruct (next_command_fails r); [|reflexivity].
  run. unfold after_redis_command. rewrite Hr. reflexivity.
Qed.

Lemma remove_session_run w sid :
  _remove_session sid w =
    (Ok tt,
     set_pending_sessions (delete sid (pending_sessions w))
       (match redis_client w with
        | Some r =>
            set_redis_client
              (Some {| kv := if next_command_fails r then kv r
                             else delete ("session:" +:+ sid) (kv r);
                       faults := tail (faults r) |}) w
        | None => w
        end)).
Proof.
  unfold _remove_session. run.
  destruct (redis_client w) as [r|] eqn:Hr; [|reflexivity].
  run. rewrite (redis_delete_run w r _ Hr).
  destruct (next_command_fails r); reflexivity.
Qed.

Lemma stored_session_set_trace t w sid :
  stored_session (set_trace t w) sid = stored_session w sid.
Proof. reflexivity. Qed.

Lemma verify_session_run w sid :
  _verify_session sid w =
    let w0 := set_trace (trace w ++ [EvVerifySession sid]) w in
    let sd := stored_session w sid in
    let w1 := after_redis_command w0 in
    if negb (truthy sd) then (Ok PNone, w1)
    else
      let now := clock w (ticks w) in
      let w2 := set_ticks (S (ticks w)) w1 in
      match py_get sd "created_at" (PNum 0) with
      | Raise _ => (Ok PNone, w2)
      | Ok created =>
          match as_number created with
          | Raise _ => (Ok PNone, w2)
          | Ok created_at =>
              if now - created_at >? session_timeout (tf_config w)
              then (Ok PNone, snd (_remove_session sid w2))
              else match py_get sd "user_info" PNone with
                   | Ok v => (Ok v, w2)
                   | Raise _ => (Ok PNone, w2)
                   end
          end
      end.
Proof.
  unfold _verify_session. run. rewrite get_session_run. cbn zeta.
  rewrite stored_session_set_trace.
  destruct (truthy (stored_session w sid)); cbn [negb]; [|reflexivity].
  assert (Hw : forall t, clock (after_redis_command (set_trace t w)) = clock w /\
                         ticks (after_redis_command (set_trace t w)) = ticks w /\
                         tf_config (after_redis_command (set_trace t w)) = tf_config w).
  { intros t. unfold after_redis_command. cbn. destruct (redis_client w); by cbn. }
  destruct (Hw (trace w ++ [EvVerifySession sid])%list) as (-> & -> & Hc).
  destruct (py_get _ "created_at" _) as [created|]; [|reflexivity].
  destruct (as_number created) as [created_at|]; [|reflexivity].
  cbn [tf_config set_ticks]. rewrite Hc.
  destruct (_ >? _).
  - rewrite remove_session_run. reflexivity.
  - destruct (py_get _ "user_info" _); reflexivity.
Qed.

Lemma verify_session_unreadable_age w sid (d : list (string * pyval)) e :
  stored_session w sid = PDict d ->
  as_number (default (PNum 0) (assoc "created_at" d)) = Raise e ->
  fst (_verify_session sid w) = Ok PNone /\
  pending_sessions (snd (_verify_session sid w)) = pending_sessions w /\
  kv <$> redis_client (snd (_verify_session sid w)) = kv <$> redis_client w.
Proof.
  intros Hsd Hnum. rewrite verify_session_run. cbn zeta. rewrite Hsd.
  assert (Hk : forall t n,
             pending_sessions
               (set_ticks n (after_redis_command (set_trace t w)))
             = pending_sessions w /\
             kv <$> redis_client
                      (set_ticks n (after_redis_command (set_trace t w)))
             = kv <$> redis_client w /\
             pending_sessions (after_redis_command (set_trace t w))
             = pending_sessions w /\
             kv <$> redis_client (after_redis_command (set_trace t w))
             = kv <$> redis_client w).
  { intros t n. unfold after_redis_command. cbn [redis_client set_trace].
    destruct (redis_client w) eqn:Hr;
      cbn [redis_client pending_sessions set_redis_client set_ticks set_trace];
      rewrite ?Hr; repeat split; reflexivity. }
  destruct (Hk (trace w ++ [EvVerifySession sid])%list (S (ticks w)))
    as (Hp1 & Hr1 & Hp0 & Hr0).
  destruct (truthy (PDict d)); cbn [negb py_get];
    [|split; [reflexivity | split; assumption]].
  rewrite Hnum. split; [reflexivity | split; assumption].
Qed.

(** C2 (as amended).  Verifying a stored session whose age exceeds
    [session_timeout] returns absent and deletes it: it is gone from the
    in-process map, and, unless the Redis delete command itself fails, no
    later lookup finds it.  Verifying a session that has not expired
    returns its [user_info] and deletes nothing: both stores are left as
    they were, so without Redis the same record is found again.  The age
    is the difference of the clock reading and [created_at], two integers
    that floats represent exactly.  A [created_at] too large for a float
    makes the subtraction raise: the session is refused, whatever its
    age, and is not deleted. *)
Theorem verify_session_consumption w sid (d : list (string * pyval)) :
  let now := clock w (ticks w) in
  let created := default (PNum 0) (assoc "created_at" d) in
  let r := fst (_verify_session sid w) in
  let w' := snd (_verify_session sid w) in
  stored_session w sid = PDict d ->
  d <> [] ->
  (forall created_at,
     as_number created = Ok created_at ->
     float_exact now -> float_exact created_at ->
     (now - created_at > session_timeout (tf_config w) ->
        r = Ok PNone /\
        pending_sessions w' !! sid = None /\
        (delete_command_fails w = false -> stored_session w' sid = PNone)) /\
     (now - created_at <= session_timeout (tf_config w) ->
        r = Ok (default PNone (assoc "user_info" d)) /\
        pending_sessions w' = pending_sessions w /\
        kv <$> redis_client w' = kv <$> redis_client w /\
        (redis_client w = None -> stored_session w' sid = PDict d))) /\
  (forall z, created = PNum z -> float_limit <= Z.abs z ->
     r = Ok PNone /\
     pending_sessions w' = pending_sessions w /\
     kv <$> redis_client w' = kv <$> redis_client w).
Proof.
  intros now created r w' Hsd Hne. subst r w'. split.
  - intros created_at Hnum _ _. unfold created in Hnum. clear created.
    rewrite verify_session_run. cbn zeta. rewrite Hsd.
    destruct d as [|kv0 d0] eqn:Hd; [contradiction|]. rewrite <- Hd in *.
    assert (Htr : truthy (PDict d) = true) by (rewrite Hd; reflexivity).
    rewrite Htr. cbn [negb py_get]. rewrite Hnum. fold now.
    unfold delete_command_fails, stored_session, after_redis_command in *.
    split; intros Hage.
    + assert (Hgt : (now - created_at >? session_timeout (tf_config w)) = true)
        by (apply Z.gtb_lt; lia).
      rewrite Hgt. cbn [fst snd]. rewrite remove_session_run. run.
      destruct (redis_client w) as [rd|] eqn:Hr; run.
      * rewrite !lookup_delete_eq. split; [reflexivity|]. split; [reflexivity|].
        intros Hdel. unfold consume_fault in *. rewrite Hdel. clear Hdel.
        cbn [kv faults]. rewrite lookup_delete_eq.
        destruct (next_command_fails {| kv := _; faults := _ |}); reflexivity.
      * rewrite ?Hr. run. rewrite ?Hr, !lookup_delete_eq. done.
    + assert (Hle : (now - created_at >? session_timeout (tf_config w)) = false).
      { destruct (Z.gtb_spec (now - created_at) (session_timeout (tf_config w)));
          [lia | reflexivity]. }
      rewrite Hle. run.
      destruct (redis_client w) as [rd|] eqn:Hr; run; rewrite ?Hr;
        repeat split; try done.
  - intros z Hz Hbig. unfold created in Hz. clear created.
    apply (verify_session_unreadable_age w sid d OverflowError Hsd).
    rewrite Hz. unfold as_number.
    destruct (Z.ltb_spec (Z.abs z) float_limit); [lia | reflexivity].
Qed.

(** ** Token verifier and cache fallback *)

Section TokenCache.

Variable sha256_hexdigest : string -> string.

Lemma get_cached_token_run w token :
  _get_cached_token sha256_hexdigest token w
  = (Ok (cached_token sha256_hexdigest w token), after_redis_command w).
Proof.
  unfold _get_cached_token, cached_token. run.
  destruct (redis_client w) as [r|] eqn:Hr;
    [|unfold after_redis_command; by rewrite Hr].
  rewrite (redis_get_run w r _ Hr).
  destruct (next_command_fails r); reflexivity.
Qed.

Lemma after_redis_command_frame w :
  trace (after_redis_command w) = trace w /\
  idp (after_redis_command w) = idp w.
Proof. unfold after_redis_command. destruct (redis_client w); by cbn. Qed.

(** C8.  [_verify_tf_token] never raises: every call returns a value.
    When the identity provider does not answer 200 (status 401, any other
    status, a network error or any other failure of the request), the
    result is absent whenever the provider was asked at all; the only
    other outcome is a hit in the token cache, returned without asking
    the provider. *)
Theorem verify_tf_token_fails_closed w token :
  (exists v w', _verify_tf_token sha256_hexdigest token w = (Ok v, w')) /\
  ((forall body, idp w token <> Response 200 body) ->
   let v := fst (_verify_tf_token sha256_hexdigest token w) in
   let w' := snd (_verify_tf_token sha256_hexdigest token w) in
   (v = Ok PNone /\
    trace w' = (trace w ++ [EvVerifyToken token; EvIdpGet token])%list) \/
   (v = Ok (cached_token sha256_hexdigest w token) /\
    truthy (cached_token sha256_hexdigest w token) = true /\
    trace w' = (trace w ++ [EvVerifyToken token])%list)).
Proof.
  unfold _verify_tf_token. run. rewrite get_cached_token_run.
  change (cached_token sha256_hexdigest (set_trace _ w) token)
    with (cached_token sha256_hexdigest w token).
  destruct (after_redis_command_frame (set_trace (trace w ++ [EvVerifyToken token]) w))
    as [Htr Hidp]. cbn [trace idp set_trace] in Htr, Hidp.
  destruct (truthy (cached_token sha256_hexdigest w token)) eqn:Hc.
  - split; [eauto|]. intros _. right. cbn [fst snd]. auto.
  - unfold requests_get. run. rewrite Hidp.
    destruct (idp w token) as [status body| |] eqn:Hout; run.
    + destruct (status =? 200) eqn:Hs.
      * apply Z.eqb_eq in Hs. subst status. split.
        -- unfold response_json. destruct body as [ui|]; run; [|eauto].
           destruct (_cache_token sha256_hexdigest token ui _) as [[[]|e] w2]; eauto.
        -- intros Hno. by destruct (Hno body).
      * split; [destruct (status =? 401); eauto|].
        intros _. left. destruct (status =? 401); cbn [fst snd];
          rewrite Htr, <- app_assoc; auto.
    + split; [eauto|]. intros _. left. cbn [fst snd]. rewrite Htr, <- app_assoc. auto.
    + split; [eauto|]. intros _. left. cbn [fst snd]. rewrite Htr, <- app_assoc. auto.
Qed.

(** C5 (as amended).  Without a Redis client ([self.redis_client] is
    [None]): caching a token does nothing and a token lookup returns
    absent, so a token written is not read back; a user profile is
    written to the in-process [user_cache] with its [cached_at] stamp; a
    session is read from and removed from the in-process
    [pending_sessions] map.  No in-process read compares a timestamp
    with a TTL. *)
Theorem cache_without_redis w :
  redis_client w = None ->
  (forall token user_info,
     _cache_token sha256_hexdigest token user_info w = (Ok tt, w)) /\
  (forall token, _get_cached_token sha256_hexdigest token w = (Ok PNone, w)) /\
  (forall token user_info,
     _get_cached_token sha256_hexdigest token
       (snd (_cache_token sha256_hexdigest token user_info w)) = (Ok PNone, w)) /\
  (forall user_id user_info,
     _cache_user_info user_id user_info w
     = (Ok tt,
        set_user_cache
          (<[user_id := (user_info, clock w (ticks w))]> (user_cache w))
          (set_ticks (S (ticks w)) w))) /\
  (forall session_id,
     _get_session session_id w
     = (Ok (default PNone (pending_sessions w !! session_id)), w)) /\
  (forall session_id,
     _remove_session session_id w
     = (Ok tt,
        set_pending_sessions (delete session_id (pending_sessions w)) w)).
Proof.
  intros Hr.
  assert (Hset : forall token user_info,
             _cache_token sha256_hexdigest token user_info w = (Ok tt, w)).
  { intros. unfold _cache_token. run. by rewrite Hr. }
  assert (Hget : forall token,
             _get_cached_token sha256_hexdigest token w = (Ok PNone, w)).
  { intros. unfold _get_cached_token. run. by rewrite Hr. }
  repeat split.
  - exact Hset.
  - exact Hget.
  - intros. rewrite Hset. apply Hget.
  - intros. unfold _cache_user_info. run. by rewrite Hr.
  - intros. unfold _get_session. run. by rewrite Hr.
  - intros. rewrite remove_session_run. by rewrite Hr.
Qed.

End TokenCache.

(** ** Account provisioner *)

Lemma rename_account_keys uid name (users : list (string * Account)) :
  (rename_account uid name <$> users).*1 = users.*1.
Proof.
  induction users as [|u users IH]; [reflexivity|].
  cbn. rewrite IH. f_equal. unfold rename_account.
  destruct (String.eqb u.1 uid); reflexivity.
Qed.



(** ** Instances and counterexamples *)

Lemma check_auth_other_login_type_witness :
  In "org.threefold.connect" (map fst get_supported_login_types) /\
  "org.threefold.connect" <> "tf_connect" /\
  check_auth ascii_lower demo_digest "" "org.threefold.connect" login_with_token
    (demo_world demo_config 1000)
  = (Ok None, demo_world demo_config 1000).
Proof.
  split; [left; reflexivity|]. split; [discriminate|].
  apply check_auth_other_login_type. discriminate.
Defined.

(** Counterexample to C1 as stated: with both credentials supplied the
    login is not refused; the token verifier runs and the login succeeds. *)
Lemma check_auth_accepts_both_credentials :
  truthy_str (login_with_both !! "tf_token") = true /\
  truthy_str (login_with_both !! "session_id") = true /\
  fst (check_auth ascii_lower demo_digest "" "tf_connect" login_with_both
         (demo_world demo_config 1000))
  = Ok (Some "@jo_doe:example.org") /\
  trace (snd (check_auth ascii_lower demo_digest "" "tf_connect" login_with_both
                (demo_world demo_config 1000)))
  = [EvVerifyToken "good-token"; EvIdpGet "good-token";
     EvCheckUserExists "@jo_doe:example.org"; EvRegisterUser "jo_doe"].
Proof. repeat split; vm_compute; reflexivity. Qed.

Lemma check_auth_required_parameters_witness :
  (exists w',
     check_auth ascii_lower demo_digest "" "tf_connect" login_with_neither
       (demo_world demo_config 1000)
     = (Raise (LoginError 400 "Missing TF Connect token or session ID"
                 "M_MISSING_PARAM"), w') /\
     trace w' = []) /\
  check_auth ascii_lower demo_digest "" "tf_connect" login_with_both
    (demo_world demo_config 1000)
  = check_auth ascii_lower demo_digest "" "tf_connect" (delete "session_id" login_with_both)
      (demo_world demo_config 1000).
Proof.
  split.
  - apply (proj1 (check_auth_required_parameters ascii_lower demo_digest
                    (demo_world demo_config 1000) "" login_with_neither
                    ltac:(vm_compute; reflexivity)));
      vm_compute; reflexivity.
  - apply (proj2 (check_auth_required_parameters ascii_lower demo_digest
                    (demo_world demo_config 1000) "" login_with_both
                    ltac:(vm_compute; reflexivity)) "good-token");
      [vm_compute; reflexivity | discriminate].
Defined.

(** Counterexample to C2 as stated: a successful verification does not
    delete the session, and verifying it again yields the identity again. *)
Lemma verify_session_twice :
  fst (_verify_session "sess-1" (session_world open_config 1000)) = Ok jo_doe /\
  fst (_verify_session "sess-1"
         (snd (_verify_session "sess-1" (session_world open_config 1000))))
  = Ok jo_doe.
Proof. split; vm_compute; reflexivity. Qed.

Lemma verify_session_consumption_witness :
  (fst (_verify_session "sess-1" (session_world open_config 5000)) = Ok PNone /\
   pending_sessions (snd (_verify_session "sess-1" (session_world open_config 5000)))
     !! "sess-1" = None) /\
  (fst (_verify_session "sess-1" (session_world open_config 1000)) = Ok jo_doe /\
   pending_sessions (snd (_verify_session "sess-1" (session_world open_config 1000)))
   = pending_sessions (session_world open_config 1000)) /\
  (fst (_verify_session "sess-1" (overflowing_session_world 5000)) = Ok PNone /\
   pending_sessions (snd (_verify_session "sess-1" (overflowing_session_world 5000)))
   = pending_sessions (overflowing_session_world 5000)).
Proof.
  refine (conj _ (conj _ _)).
  - pose proof (proj1 (proj1 (verify_session_consumption
                  (session_world open_config 5000)
                  "sess-1" [("created_at", PNum 900); ("user_info", jo_doe)]
                  ltac:(vm_compute; reflexivity) ltac:(discriminate))
                  900 ltac:(vm_compute; reflexivity)
                  ltac:(vm_compute; discriminate) ltac:(vm_compute; discriminate))
                  ltac:(vm_compute; reflexivity)) as (H1 & H2 & _).
    exact (conj H1 H2).
  - pose proof (proj2 (proj1 (verify_session_consumption
                  (session_world open_config 1000)
                  "sess-1" [("created_at", PNum 900); ("user_info", jo_doe)]
                  ltac:(vm_compute; reflexivity) ltac:(discriminate))
                  900 ltac:(vm_compute; reflexivity)
                  ltac:(vm_compute; discriminate) ltac:(vm_compute; discriminate))
                  ltac:(vm_compute; discriminate)) as (H1 & H2 & _).
    exact (conj H1 H2).
  - pose proof (proj2 (verify_session_consumption
                  (overflowing_session_world 5000)
                  "sess-1" [("created_at", PNum (- 2 ^ 1024)); ("user_info", jo_doe)]
                  ltac:(vm_compute; reflexivity) ltac:(discriminate))
                  (- 2 ^ 1024) eq_refl ltac:(vm_compute; discriminate))
      as (H1 & H2 & _).
    exact (conj H1 H2).
Defined.


(** Counterexample to C4 as stated: a timestamp far older than the window
    stays in the stored list of a client whose last attempt is recent. *)
Lemma check_rate_limit_keeps_old_timestamp :
  fst (_check_rate_limit "1.2.3.4" stale_world) = Ok true /\
  rate_limit_cache (snd (_check_rate_limit "1.2.3.4" stale_world)) !! "1.2.3.4"
  = Some [0; 1000] /\
  ~ (clock stale_world (ticks stale_world) - 0
     < rate_limit_window (tf_config stale_world)).
Proof.
  split; [vm_compute; reflexivity|]. split; [vm_compute; reflexivity|].
  vm_compute. discriminate.
Qed.

Lemma check_rate_limit_keeps_recent_clients_witness :
  rate_limit_cache stale_world !! "1.2.3.4" = Some [0; 1000] /\
  exists t, last [0; 1000] = Some t /\ 1001 - t < 300.
Proof.
  exact (proj1 (check_rate_limit_keeps_recent_clients stale_world "1.2.3.4" true
                  (snd (_check_rate_limit "1.2.3.4" stale_world))
                  ltac:(vm_compute; reflexivity))
           "1.2.3.4" [0; 1000] ltac:(vm_compute; reflexivity)).
Defined.

(** Counterexample to C5 as stated: with no Redis client a verified
    identity written to the token cache is not read back. *)
Lemma cache_token_not_read_back :
  redis_client (demo_world demo_config 1000) = None /\
  fst (_get_cached_token demo_digest "good-token"
         (snd (_cache_token demo_digest "good-token" jo_doe
                 (demo_world demo_config 1000))))
  = Ok PNone.
Proof. split; vm_compute; reflexivity. Qed.

Lemma cache_without_redis_witness :
  _get_cached_token demo_digest "good-token"
    (snd (_cache_token demo_digest "good-token" jo_doe (demo_world demo_config 1000)))
  = (Ok PNone, demo_world demo_config 1000) /\
  _get_session "sess-1" (session_world open_config 1000)
  = (Ok demo_session, session_world open_config 1000).
Proof.
  split.
  - apply (cache_without_redis demo_digest (demo_world demo_config 1000) eq_refl).
  - apply (cache_without_redis demo_digest (session_world open_config 1000) eq_refl).
Defined.

(** Counterexample to C6 as stated: identities without a [doubleName] are
    not mapped to one generic label but to their [username]; and an
    identity whose [doubleName] is not a string is mapped to no id. *)
Lemma map_tf_user_to_matrix_uses_username :
  assoc "doubleName" [("username", PStr "Al.Ice")] = None /\
  assoc "doubleName" [("username", PStr "Bob")] = None /\
  _map_tf_user_to_matrix ascii_lower demo_config (PDict [("username", PStr "Al.Ice")])
  = Ok "@al_ice:example.org" /\
  _map_tf_user_to_matrix ascii_lower demo_config (PDict [("username", PStr "Bob")])
  = Ok "@bob:example.org" /\
  _map_tf_user_to_matrix ascii_lower demo_config (PDict [("doubleName", PNone)])
  = Raise AttributeError.
Proof. repeat split; reflexivity. Qed.

Lemma map_tf_user_to_matrix_spec_witness :
  _map_tf_user_to_matrix ascii_lower demo_config jo_doe = Ok "@jo_doe:example.org".
Proof.
  exact (map_tf_user_to_matrix_spec ascii_lower demo_config
           [("doubleName", PStr "Jo.Doe"); ("email", PStr "jo@allowed.com")]
           "Jo.Doe" eq_refl).
Defined.

(** Counterexample to C7 as stated: the gate does not always answer.  An
    email that is a number, and an identity that is a list, raise
    [AttributeError]; and an "email" that has no ['@'] and is the bare
    domain is admitted. *)
Lemma is_user_allowed_raises_or_admits :
  _is_user_allowed ascii_lower demo_config (PDict [("email", PNum 7)])
  = Raise AttributeError /\
  _is_user_allowed ascii_lower demo_config (PList [PStr "jo@allowed.com"])
  = Raise AttributeError /\
  _is_user_allowed ascii_lower demo_config (PDict [("email", PStr "allowed.com")])
  = Ok true.
Proof. repeat split; reflexivity. Qed.

Lemma is_user_allowed_spec_witness :
  _is_user_allowed ascii_lower open_config PNone = Ok true /\
  _is_user_allowed ascii_lower demo_config (PDict [("doubleName", PStr "Jo.Doe")])
  = Ok false /\
  _is_user_allowed ascii_lower demo_config jo_doe = Ok true /\
  _is_user_allowed ascii_lower demo_config (PDict [("email", PStr "jo@Allowed.COM")])
  = Ok true /\
  _is_user_allowed ascii_lower demo_config
    (PDict [("email", PStr "jo@allowed.com@Other.COM")]) = Ok false /\
  _is_user_allowed ascii_lower demo_config (PDict [("email", PNum 7)])
  = Raise AttributeError /\
  _is_user_allowed ascii_lower demo_config PNone = Raise AttributeError.
Proof.
  pose proof (proj2 (is_user_allowed_spec ascii_lower demo_config)
                ltac:(discriminate)) as [Hobj Hd].
  refine (conj _ (conj _ (conj _ (conj _ (conj _ (conj _ _)))))).
  - exact (proj1 (is_user_allowed_spec ascii_lower open_config) eq_refl PNone).
  - exact (proj1 (Hd [("doubleName", PStr "Jo.Doe")]) eq_refl).
  - exact (proj1 (proj2 (proj2 (Hd [("doubleName", PStr "Jo.Doe");
                                    ("email", PStr "jo@allowed.com")]))
                    "jo@allowed.com" eq_refl ltac:(discriminate))).
  - exact (proj1 (proj2 (proj2 (Hd [("email", PStr "jo@Allowed.COM")]))
                    "jo@Allowed.COM" eq_refl ltac:(discriminate))).
  - exact (proj1 (proj2 (proj2 (Hd [("email", PStr "jo@allowed.com@Other.COM")]))
                    "jo@allowed.com@Other.COM" eq_refl ltac:(discriminate))).
  - exact (proj1 (proj2 (Hd [("email", PNum 7)])) eq_refl ltac:(discriminate)).
  - exact (Hobj PNone ltac:(discriminate)).
Defined.

Lemma verify_tf_token_fails_closed_witness :
  idp (demo_world demo_config 1000) "bad-token" = Response 401 None /\
  fst (_verify_tf_token demo_digest "bad-token" (demo_world demo_config 1000))
  = Ok PNone.
Proof.
  split; [reflexivity|].
  destruct (proj2 (verify_tf_token_fails_closed demo_digest
                     (demo_world demo_config 1000) "bad-token")
              ltac:(intros body; vm_compute; discriminate))
    as [[H _] | (_ & H & _)].
  - exact H.
  - vm_compute in H. discriminate H.
Defined.



(** * Further properties of the provider *)

(** ** Frames, invariants and raised exceptions *)

Lemma keeps_ret {A B} (proj : World -> B) (a : A) : keeps proj (ret a).
Proof. intros w. reflexivity. Qed.

Lemma keeps_raise {A B} (proj : World -> B) e : keeps proj (@raise A e).
Proof. intros w. reflexivity. Qed.

Lemma keeps_lift {A B} (proj : World -> B) (r : result A) : keeps proj (lift r).
Proof. intros w. reflexivity. Qed.

Lemma keeps_get_world {B} (proj : World -> B) : keeps proj get_world.
Proof. intros w. reflexivity. Qed.

Lemma keeps_bind {A B C} (proj : World -> C) (m : M A) (k : A -> M B) :
  keeps proj m -> (forall a, keeps proj (k a)) -> keeps proj (bind m k).
Proof.
  intros Hm Hk w. unfold bind. specialize (Hm w).
  destruct (m w) as [[a|e] w1]; cbn [snd] in *; [|exact Hm].
  rewrite Hk. exact Hm.
Qed.

Lemma keeps_try_except {A C} (proj : World -> C) (m : M A) (h : exn -> M A) :
  keeps proj m -> (forall e, keeps proj (h e)) -> keeps proj (try_except m h).
Proof.
  intros Hm Hh w. unfold try_except. specialize (Hm w).
  destruct (m w) as [[a|e] w1]; cbn [snd] in *; [exact Hm|].
  rewrite Hh. exact Hm.
Qed.

Lemma keeps_redis_command {A C} (proj : World -> C) op :
  (forall r w, proj (set_redis_client r w) = proj w) ->
  keeps proj (@redis_command A op).
Proof.
  intros H w. unfold redis_command.
  destruct (redis_client w) as [r|]; [|reflexivity].
  destruct (faults r) as [|[] fs]; try destruct (op (kv r)); cbn [snd]; apply H.
Qed.

Ltac keeps_step :=
  first [ assumption
        | apply keeps_ret | apply keeps_raise | apply keeps_lift
        | apply keeps_get_world
        | solve [auto with keeps]
        | progress cbv zeta
        | apply keeps_bind; [|intros ?]
        | apply keeps_try_except; [|intros ?]
        | apply keeps_redis_command; reflexivity
        | match goal with
          | |- keeps _ (if ?b then _ else _) => destruct b
          | |- keeps _ (match ?x with _ => _ end) => destruct x
          end
        | (intros ?; reflexivity) ].

Ltac keeps_tac := repeat keeps_step.

Create HintDb keeps.

Lemma keeps_redis_get {C} (proj : World -> C) key :
  (forall r w, proj (set_redis_client r w) = proj w) -> keeps proj (redis_get key).
Proof. apply keeps_redis_command. Qed.

Lemma keeps_redis_setex {C} (proj : World -> C) key ttl v :
  (forall r w, proj (set_redis_client r w) = proj w) ->
  keeps proj (redis_setex key ttl v).
Proof. apply keeps_redis_command. Qed.

Lemma keeps_redis_delete {C} (proj : World -> C) key :
  (forall r w, proj (set_redis_client r w) = proj w) ->
  keeps proj (redis_delete key).
Proof. apply keeps_redis_command. Qed.

Lemma preserves_keeps {A B} (proj : World -> B) (P : B -> Prop) (m : M A) :
  keeps proj m -> preserves (fun w => P (proj w)) m.
Proof. intros H w Hw. by rewrite H. Qed.

Lemma preserves_bind {A B} I (m : M A) (k : A -> M B) :
  preserves I m -> (forall a, preserves I (k a)) -> preserves I (bind m k).
Proof.
  intros Hm Hk w Hw. unfold bind. specialize (Hm w Hw).
  destruct (m w) as [[a|e] w1]; cbn [snd] in *; [|exact Hm].
  by apply Hk.
Qed.

Lemma preserves_try_except {A} I (m : M A) (h : exn -> M A) :
  preserves I m -> (forall e, preserves I (h e)) -> preserves I (try_except m h).
Proof.
  intros Hm Hh w Hw. unfold try_except. specialize (Hm w Hw).
  destruct (m w) as [[a|e] w1]; cbn [snd] in *; [exact Hm|].
  by apply Hh.
Qed.

Lemma raises_only_ret {A} P (a : A) : raises_only P (ret a).
Proof. intros w. exact I. Qed.

Lemma raises_only_raise {A} (P : exn -> Prop) e : P e -> raises_only P (@raise A e).
Proof. intros H w. exact H. Qed.

Lemma raises_only_bind {A B} P (m : M A) (k : A -> M B) :
  raises_only P m -> (forall a, raises_only P (k a)) -> raises_only P (bind m k).
Proof.
  intros Hm Hk w. unfold bind. specialize (Hm w).
  destruct (m w) as [[a|e] w1]; cbn [fst] in *; [apply Hk | exact Hm].
Qed.

Lemma raises_only_try_except {A} P Q (m : M A) (h : exn -> M A) :
  raises_only Q m -> (forall e, Q e -> raises_only P (h e)) ->
  raises_only P (try_except m h).
Proof.
  intros Hm Hh w. unfold try_except. specialize (Hm w).
  destruct (m w) as [[a|e] w1]; cbn [fst] in *; [exact I | by apply Hh].
Qed.

Lemma raises_only_weaken {A} (P Q : exn -> Prop) (m : M A) :
  (forall e, P e -> Q e) -> raises_only P m -> raises_only Q m.
Proof.
  intros H Hm w. specialize (Hm w). destruct (fst (m w)); [exact I | by apply H].
Qed.

Lemma after_redis_command_keeps w :
  rate_limit_cache (after_redis_command w) = rate_limit_cache w /\
  account_handler (after_redis_command w) = account_handler w /\
  pending_sessions (after_redis_command w) = pending_sessions w /\
  user_cache (after_redis_command w) = user_cache w /\
  tf_config (after_redis_command w) = tf_config w /\
  ticks (after_redis_command w) = ticks w /\
  clock (after_redis_command w) = clock w.
Proof. unfold after_redis_command. destruct (redis_client w); by cbn. Qed.

Lemma keeps_get_session sid :
  keeps rate_limit_cache (_get_session sid) /\
  keeps account_handler (_get_session sid).
Proof.
  split; intros w; rewrite get_session_run; cbn [snd];
    apply after_redis_command_keeps.
Qed.

Lemma keeps_remove_session sid :
  keeps rate_limit_cache (_remove_session sid) /\
  keeps account_handler (_remove_session sid).
Proof.
  split; intros w; rewrite remove_session_run; cbn [snd];
    destruct (redis_client w); reflexivity.
Qed.

#[export] Hint Resolve keeps_redis_get keeps_redis_setex keeps_redis_delete : keeps.

Lemma keeps_verify_session sid :
  keeps rate_limit_cache (_verify_session sid) /\
  keeps account_handler (_verify_session sid).
Proof.
  destruct (keeps_get_session sid), (keeps_remove_session sid).
  split; unfold _verify_session; keeps_tac.
Qed.

Lemma keeps_rate_limiter_host ip :
  keeps account_handler (_check_rate_limit ip) /\
  keeps account_handler (_record_failed_attempt ip).
Proof.
  split; intros w.
  - rewrite check_rate_limit_run. cbn zeta. destruct (decide _); reflexivity.
  - reflexivity.
Qed.

Lemma keeps_cache_user_info uid ui :
  keeps rate_limit_cache (_cache_user_info uid ui) /\
  keeps account_handler (_cache_user_info uid ui).
Proof. split; unfold _cache_user_info; keeps_tac. Qed.

Lemma keeps_ensure_user_exists uid ui :
  keeps rate_limit_cache (_ensure_user_exists uid ui).
Proof.
  unfold _ensure_user_exists, check_user_exists, register_user, set_displayname.
  keeps_tac.
Qed.

Section Frames.

Variable sha256_hexdigest : string -> string.

Lemma keeps_token_cache tok ui :
  (keeps rate_limit_cache (_get_cached_token sha256_hexdigest tok) /\
   keeps account_handler (_get_cached_token sha256_hexdigest tok)) /\
  (keeps rate_limit_cache (_cache_token sha256_hexdigest tok ui) /\
   keeps account_handler (_cache_token sha256_hexdigest tok ui)).
Proof. repeat split; unfold _get_cached_token, _cache_token; keeps_tac. Qed.

Lemma keeps_verify_tf_token tok :
  keeps rate_limit_cache (_verify_tf_token sha256_hexdigest tok) /\
  keeps account_handler (_verify_tf_token sha256_hexdigest tok).
Proof.
  pose proof (fun ui => proj1 (proj1 (keeps_token_cache tok ui))) as H1.
  pose proof (fun ui => proj2 (proj1 (keeps_token_cache tok ui))) as H2.
  pose proof (fun ui => proj1 (proj2 (keeps_token_cache tok ui))) as H3.
  pose proof (fun ui => proj2 (proj2 (keeps_token_cache tok ui))) as H4.
  specialize (H1 PNone). specialize (H2 PNone).
  split; unfold _verify_tf_token, requests_get, response_json; keeps_tac.
Qed.

Lemma keeps_credential_verifier ld :
  keeps rate_limit_cache (credential_verifier sha256_hexdigest ld) /\
  keeps account_handler (credential_verifier sha256_hexdigest ld).
Proof.
  unfold credential_verifier. cbv zeta.
  destruct (truthy_str (ld !! "tf_token")); [apply keeps_verify_tf_token|].
  destruct (truthy_str (ld !! "session_id")); [apply keeps_verify_session|].
  split; apply keeps_raise.
Qed.

End Frames.

(** ** Rate limiter *)

(** The verdict of the limiter in closed form: it reads the client's own
    window only. *)
Lemma check_rate_limit_verdict w ip :
  windows_nonempty (rate_limit_cache w) ->
  let now := clock w (ticks w) in
  let window := rate_limit_window (tf_config w) in
  let attempts := default [] (rate_limit_cache w !! ip) in
  fst (_check_rate_limit ip w)
  = Ok (Z.of_nat (length (recent_attempts now window
                            (if decide (last_attempt_recent now window attempts)
                             then attempts else [])))
        <? max_login_attempts (tf_config w)).
Proof.
  intros Hne now window attempts. rewrite check_rate_limit_run. cbn zeta.
  destruct (decide _) as [_|Hn]; [|contradiction]. cbn [fst].
  fold now window. do 3 f_equal. unfold recent_attempts. f_equal.
  subst attempts.
  destruct (rate_limit_cache w !! ip) as [l|] eqn:Hl; cbn [from_option id].
  - destruct (decide (last_attempt_recent now window l)) as [Hr|Hr].
    + erewrite (proj2 (map_lookup_filter_Some _ _ ip l)); [reflexivity|].
      by split.
    + rewrite (proj2 (map_lookup_filter_None _ _ ip)); [reflexivity|].
      right. intros x Hx. rewrite Hl in Hx. by injection Hx as <-.
  - rewrite (proj2 (map_lookup_filter_None _ _ ip)) by (by left).
    by destruct (decide _).
Qed.

(** X1.  The verdict for a client depends on nothing but the
    configuration, the clock reading and that client's own window: two
    worlds that agree on these give the same verdict, whatever is on
    record for other clients; and recording a failure for one client
    leaves the window of every other client as it was. *)
Theorem rate_limit_isolated w1 w2 ip :
  windows_nonempty (rate_limit_cache w1) ->
  windows_nonempty (rate_limit_cache w2) ->
  tf_config w1 = tf_config w2 ->
  clock w1 (ticks w1) = clock w2 (ticks w2) ->
  rate_limit_cache w1 !! ip = rate_limit_cache w2 !! ip ->
  fst (_check_rate_limit ip w1) = fst (_check_rate_limit ip w2) /\
  (forall other, other <> ip ->
     rate_limit_cache (snd (_record_failed_attempt other w1)) !! ip
     = rate_limit_cache w1 !! ip).
Proof.
  intros H1 H2 Hc Ht Hl. split.
  - rewrite !check_rate_limit_verdict by assumption. cbn zeta.
    by rewrite Hc, Ht, Hl.
  - intros other Hne. rewrite record_failed_attempt_run. cbn.
    by apply lookup_insert_ne.
Qed.

(** X2.  A client is let through again once its last recorded failure
    is no longer inside the window (and [max_login_attempts] is
    positive), and the check removes its window from the store. *)
Theorem rate_limit_forgets w ip (attempts : list Z) :
  let now := clock w (ticks w) in
  windows_nonempty (rate_limit_cache w) ->
  rate_limit_cache w !! ip = Some attempts ->
  ~ last_attempt_recent now (rate_limit_window (tf_config w)) attempts ->
  0 < max_login_attempts (tf_config w) ->
  fst (_check_rate_limit ip w) = Ok true /\
  rate_limit_cache (snd (_check_rate_limit ip w)) !! ip = None.
Proof.
  intros now Hne Hl Hold Hmax. split.
  - rewrite check_rate_limit_verdict by assumption. cbn zeta. rewrite Hl.
    cbn [from_option id]. destruct (decide _) as [Hr|_]; [contradiction|].
    cbn. f_equal. by apply Z.ltb_lt.
  - rewrite check_rate_limit_run. cbn zeta.
    destruct (decide _) as [_|Hn]; [|contradiction]. cbn.
    apply map_lookup_filter_None. right. intros x Hx.
    rewrite Hl in Hx. by injection Hx as <-.
Qed.

Lemma length_recent_attempts now window (l : list Z) :
  (length (recent_attempts now window l) <= length l)%nat.
Proof. apply length_filter. Qed.

(** X3.  A client with fewer than [max_login_attempts] failures on
    record, recent or not, is never refused by the limiter. *)
Theorem rate_limit_under_limit w ip :
  windows_nonempty (rate_limit_cache w) ->
  Z.of_nat (length (default [] (rate_limit_cache w !! ip)))
  < max_login_attempts (tf_config w) ->
  fst (_check_rate_limit ip w) = Ok true.
Proof.
  intros Hne Hlen. rewrite check_rate_limit_verdict by assumption. cbn zeta.
  f_equal. apply Z.ltb_lt.
  set (l := default [] (rate_limit_cache w !! ip)) in *.
  destruct (decide _).
  - pose proof (length_recent_attempts (clock w (ticks w))
                  (rate_limit_window (tf_config w)) l). lia.
  - cbn. lia.
Qed.

(** ** Account provisioner and profile cache, run *)

Lemma ensure_user_exists_run w uid (d : list (string * pyval)) :
  let h := account_handler w in
  let checked := (trace w ++ [EvCheckUserExists uid])%list in
  _ensure_user_exists uid (PDict d) w =
    (Ok tt,
     if bool_decide (uid ∈ (hs_users h).*1) then
       set_account_handler
         {| hs_name := hs_name h;
            hs_users := rename_account uid (display_name d) <$> hs_users h |}
         (set_trace (checked ++ [EvSetDisplayname uid]) w)
     else
       set_account_handler
         {| hs_name := hs_name h;
            hs_users :=
              hs_users h ++
              [(host_user_id h (localpart_of uid),
                {| acc_displayname := display_name d;
                   acc_emails :=
                     if truthy (default PNone (assoc "email" d))
                     then [default PNone (assoc "email" d)] else [];
                   acc_password := None |})] |}
         (set_trace (checked ++ [EvRegisterUser (localpart_of uid)]) w)).
Proof.
  unfold _ensure_user_exists, check_user_exists, register_user,
    set_displayname, display_name_of, emails_of, display_name.
  run. cbn [py_get].
  destruct (bool_decide _); cbn [negb]; run; reflexivity.
Qed.

Lemma cache_user_info_run w uid ui :
  let cached_at := clock w (ticks w) in
  let w0 := set_ticks (S (ticks w)) w in
  let in_memory w1 :=
    set_user_cache (<[uid := (ui, cached_at)]> (user_cache w1)) w1 in
  _cache_user_info uid ui w =
    (Ok tt,
     match redis_client w with
     | Some r =>
         if next_command_fails r
         then in_memory (set_redis_client (Some (consume_fault r)) w0)
         else set_redis_client
                (Some {| kv := <["user:" +:+ uid :=
                                  (PDict [("user_info", ui);
                                          ("cached_at", PNum cached_at)],
                                   user_cache_ttl (tf_config w))]> (kv r);
                         faults := tail (faults r) |}) w0
     | None => in_memory w0
     end).
Proof.
  unfold _cache_user_info. run.
  destruct (redis_client w) as [r|] eqn:Hr; [|reflexivity].
  unfold try_except, redis_setex, redis_command, next_command_fails, consume_fault.
  cbn [redis_client set_ticks]. rewrite Hr.
  destruct (faults r) as [|[] fs]; reflexivity.
Qed.

(** ** The orchestrator, step by step *)

Lemma neither_missing (a b : bool) : a || b = true -> negb a && negb b = false.
Proof. destruct a, b; cbn; congruence. Qed.

Lemma raises_only_True {A} (m : M A) : raises_only (fun _ => True) m.
Proof. intros w. destruct (fst (m w)); exact I. Qed.

Lemma raises_only_lift {A} (P : exn -> Prop) (r : result A) :
  (forall e, r = Raise e -> P e) -> raises_only P (lift r).
Proof. intros H w. cbn. destruct r; [exact I | by apply H]. Qed.

Lemma py_get_raises v k dflt e : py_get v k dflt = Raise e -> e = AttributeError.
Proof. destruct v; cbn; congruence. Qed.

Lemma is_user_allowed_raises str_lower c ui e :
  _is_user_allowed str_lower c ui = Raise e -> e = AttributeError.
Proof.
  unfold _is_user_allowed. destruct (allowed_domains c); [discriminate|].
  destruct (py_get ui "email" (PStr "")) as [email|e'] eqn:E.
  - destruct (negb (truthy email)); [discriminate|].
    destruct email; cbn; congruence.
  - apply py_get_raises in E. congruence.
Qed.

Lemma map_tf_user_to_matrix_raises str_lower c ui e :
  _map_tf_user_to_matrix str_lower c ui = Raise e -> e = AttributeError.
Proof.
  unfold _map_tf_user_to_matrix.
  destruct (py_get ui "username" _) as [fb|e1] eqn:E1;
    [|apply py_get_raises in E1; congruence].
  destruct (py_get ui "doubleName" fb) as [n|e2] eqn:E2;
    [|apply py_get_raises in E2; congruence].
  destruct n; cbn; congruence.
Qed.

Lemma display_name_of_raises ui e : display_name_of ui = Raise e -> e = AttributeError.
Proof.
  unfold display_name_of.
  destruct (py_get ui "doubleName" _) as [fb|e1] eqn:E1;
    [|apply py_get_raises in E1; congruence].
  apply py_get_raises.
Qed.

Lemma emails_of_raises ui e : emails_of ui = Raise e -> e = AttributeError.
Proof.
  unfold emails_of.
  destruct (py_get ui "email" PNone) as [em|e1] eqn:E1; [discriminate|].
  apply py_get_raises in E1. congruence.
Qed.

Ltac raises_step :=
  first [ assumption
        | apply raises_only_ret
        | apply raises_only_raise; cbn; tauto
        | progress cbv zeta
        | apply raises_only_bind; [|intros ?]
        | match goal with
          | |- raises_only _ (if ?b then _ else _) => destruct b
          | |- raises_only _ (match ?x with _ => _ end) => destruct x
          end
        | (intros ?; exact I) ].

Ltac raises_tac := repeat raises_step.

Lemma ensure_user_exists_raises uid ui :
  raises_only (fun e => e = AttributeError) (_ensure_user_exists uid ui).
Proof.
  unfold _ensure_user_exists.
  apply raises_only_try_except with (Q := fun e => e = AttributeError).
  - pose proof (raises_only_lift _ _ (display_name_of_raises ui)).
    pose proof (raises_only_lift _ _ (emails_of_raises ui)).
    unfold check_user_exists, register_user, set_displayname. raises_tac.
  - intros e ->. by apply raises_only_raise.
Qed.

Lemma ensure_user_exists_raises_inside uid ui :
  raises_only raised_inside (_ensure_user_exists uid ui).
Proof.
  eapply raises_only_weaken; [|apply ensure_user_exists_raises].
  intros e ->. exact I.
Qed.

Lemma cache_user_info_raises P uid ui : raises_only P (_cache_user_info uid ui).
Proof.
  unfold _cache_user_info. raises_tac.
  apply raises_only_try_except with (Q := fun _ => True);
    [apply raises_only_True | intros; raises_tac].
Qed.

Lemma verify_session_raises P sid : raises_only P (_verify_session sid).
Proof.
  unfold _verify_session. raises_tac.
  apply raises_only_try_except with (Q := fun _ => True);
    [apply raises_only_True | intros; raises_tac].
Qed.

Lemma check_rate_limit_raises ip : raises_only raised_inside (_check_rate_limit ip).
Proof.
  intros w. rewrite check_rate_limit_run. cbn zeta.
  destruct (decide _); exact I.
Qed.

Lemma check_rate_limit_returns w ip :
  windows_nonempty (rate_limit_cache w) ->
  exists b, fst (_check_rate_limit ip w) = Ok b.
Proof.
  intros Hne. rewrite check_rate_limit_run. cbn zeta.
  destruct (decide _); [eauto | contradiction].
Qed.

Section OrchestratorSteps.

Variable str_lower : string -> string.
Variable sha256_hexdigest : string -> string.

Lemma verify_tf_token_raises P tok :
  raises_only P (_verify_tf_token sha256_hexdigest tok).
Proof.
  unfold _verify_tf_token. raises_tac.
  apply raises_only_try_except with (Q := fun _ => True);
    [apply raises_only_True | intros; raises_tac].
Qed.

Lemma credential_verifier_raises ld :
  raises_only raised_inside (credential_verifier sha256_hexdigest ld).
Proof.
  unfold credential_verifier. cbv zeta.
  destruct (truthy_str _); [apply verify_tf_token_raises|].
  destruct (truthy_str _); [apply verify_session_raises|].
  apply raises_only_raise. cbn. tauto.
Qed.

(** X4.  Whatever goes wrong inside a ["tf_connect"] login or any other
    login, the only exception [check_auth] lets out is a [LoginError],
    with one of the codes 429, 400, 401, 403 and 500. *)
Theorem check_auth_raises_login_error w username login_type login_dict e w' :
  check_auth str_lower sha256_hexdigest username login_type login_dict w = (Raise e, w') ->
  exists code msg errcode,
    e = LoginError code msg errcode /\
    (code = 429 \/ code = 400 \/ code = 401 \/ code = 403 \/ code = 500).
Proof.
  set (surfaced := fun e : exn =>
         exists code msg errcode,
           e = LoginError code msg errcode /\
           (code = 429 \/ code = 400 \/ code = 401 \/ code = 403 \/ code = 500)).
  assert (H : raises_only surfaced
                (check_auth str_lower sha256_hexdigest username login_type login_dict)).
  { unfold check_auth. destruct (negb _); [apply raises_only_ret|].
    apply raises_only_try_except with (Q := raised_inside).
    - pose proof (check_rate_limit_raises
                    (default "unknown" (login_dict !! "client_ip"))).
      pose proof (credential_verifier_raises login_dict) as Hcv.
      unfold credential_verifier in Hcv. cbv zeta in Hcv.
      pose proof ensure_user_exists_raises_inside as Hens.
      cbv zeta. apply raises_only_bind; [assumption|]. intros b.
      destruct (negb b); [apply raises_only_raise; cbn; tauto|].
      destruct (_ && _); [apply raises_only_raise; cbn; tauto|].
      apply raises_only_bind; [exact Hcv|]. intros ui.
      destruct (negb (truthy ui)); [raises_tac|].
      apply raises_only_bind; [raises_tac|]. intros w0.
      apply raises_only_bind.
      { apply raises_only_lift. intros e0 He0.
        apply is_user_allowed_raises in He0. by subst. }
      intros allowed. destruct (negb allowed); [apply raises_only_raise; cbn; tauto|].
      apply raises_only_bind.
      { apply raises_only_lift. intros e0 He0.
        apply map_tf_user_to_matrix_raises in He0. by subst. }
      intros uid. apply raises_only_bind; [apply Hens|]. intros _.
      apply raises_only_bind; [apply cache_user_info_raises|].
      intros _. apply raises_only_ret.
    - intros e0 He0. destruct e0; apply raises_only_raise; unfold surfaced;
        try (do 3 eexists; split; [reflexivity | tauto]).
      cbn in He0. do 3 eexists. split; [reflexivity | tauto]. }
  intros E. specialize (H w). rewrite E in H. exact H.
Qed.

(** Entering [check_auth]: the rate check passed, a credential was
    supplied and the verifier returned. *)
Ltac enter_check_auth Erate Hcred Everify :=
  unfold check_auth; cbn [String.eqb Ascii.eqb Bool.eqb negb];
  rewrite (try_bind_run _ _ _ _ _ _ Erate); cbn [negb];
  rewrite (neither_missing _ _ Hcred);
  unfold credential_verifier in Everify; cbv zeta in Everify;
  rewrite (try_bind_run _ _ _ _ _ _ Everify).

(** X5.  With [max_login_attempts] zero or negative, every ["tf_connect"]
    login is refused with [LoginError 429] before any verification. *)
Theorem check_auth_locked_out w username login_dict :
  windows_nonempty (rate_limit_cache w) ->
  max_login_attempts (tf_config w) <= 0 ->
  exists w',
    check_auth str_lower sha256_hexdigest username "tf_connect" login_dict w
    = (Raise (LoginError 429 "Too many login attempts" "M_LIMIT_EXCEEDED"), w') /\
    trace w' = trace w.
Proof.
  intros Hne Hmax.
  set (ip := default "unknown" (login_dict !! "client_ip")).
  pose proof (check_rate_limit_verdict w ip Hne) as Hv. cbn zeta in Hv.
  pose proof (check_rate_limit_trace w ip) as Ht.
  destruct (_check_rate_limit ip w) as [r w1] eqn:E. cbn [fst snd] in Hv, Ht.
  assert (Hr : r = Ok false).
  { rewrite Hv. f_equal. apply Z.ltb_ge. lia. }
  clear Hv. subst r. exists w1. split; [|exact Ht].
  unfold check_auth. cbn [String.eqb Ascii.eqb Bool.eqb negb].
  fold ip. rewrite (try_bind_run _ _ _ _ _ _ E). reflexivity.
Qed.

(** X6.  [check_auth] keeps every stored window non-empty, and while
    that holds the limiter's [attempts[-1]] never fails: the rate check
    returns a verdict. *)
Theorem check_auth_keeps_windows_nonempty w username login_type login_dict :
  windows_nonempty (rate_limit_cache w) ->
  windows_nonempty
    (rate_limit_cache
       (snd (check_auth str_lower sha256_hexdigest username login_type login_dict w))) /\
  exists verdict,
    fst (_check_rate_limit (default "unknown" (login_dict !! "client_ip")) w)
    = Ok verdict.
Proof.
  intros Hne. split; [|by apply check_rate_limit_returns].
  revert w Hne.
  change (preserves (fun w => windows_nonempty (rate_limit_cache w))
            (check_auth str_lower sha256_hexdigest username login_type login_dict)).
  set (I := fun w => windows_nonempty (rate_limit_cache w)).
  assert (Hk : forall A (m : M A), keeps rate_limit_cache m -> preserves I m).
  { intros A m Hm. exact (preserves_keeps rate_limit_cache windows_nonempty m Hm). }
  unfold check_auth. destruct (negb _); [apply Hk, keeps_ret|].
  apply preserves_try_except;
    [|intros e; destruct e; apply Hk, keeps_raise].
  cbv zeta. apply preserves_bind.
  { intros w Hw. by apply check_rate_limit_nonempty. }
  intros b. destruct (negb b); [apply Hk, keeps_raise|].
  destruct (_ && _); [apply Hk, keeps_raise|].
  apply preserves_bind.
  { apply Hk. exact (proj1 (keeps_credential_verifier sha256_hexdigest login_dict)). }
  intros ui. destruct (negb (truthy ui)).
  - apply preserves_bind; [|intros; apply Hk, keeps_raise].
    intros w Hw. by apply record_failed_attempt_nonempty.
  - apply Hk. pose proof (keeps_ensure_user_exists) as Hens.
    pose proof (fun uid => proj1 (keeps_cache_user_info uid ui)) as Hcache.
    apply keeps_bind; [apply keeps_get_world|]. intros w0.
    apply keeps_bind; [apply keeps_lift|]. intros allowed.
    destruct (negb allowed); [apply keeps_raise|].
    apply keeps_bind; [apply keeps_lift|]. intros uid.
    apply keeps_bind; [apply Hens|]. intros _.
    apply keeps_bind; [apply Hcache|]. intros _. apply keeps_ret.
Qed.

(** X7.  A login that passes the rate check and whose credential
    verifies to nothing (absent, or any falsy value) fails with
    [LoginError 401], and the failure is recorded: the time of the
    rejection becomes the last entry of the client's window.  The
    account store is not touched. *)
Theorem check_auth_invalid_credential w w1 w2 username login_dict user_info :
  let client_ip := default "unknown" (login_dict !! "client_ip") in
  _check_rate_limit client_ip w = (Ok true, w1) ->
  truthy_str (login_dict !! "tf_token")
  || truthy_str (login_dict !! "session_id") = true ->
  credential_verifier sha256_hexdigest login_dict w1 = (Ok user_info, w2) ->
  truthy user_info = false ->
  exists w',
    check_auth str_lower sha256_hexdigest username "tf_connect" login_dict w
    = (Raise (LoginError 401 "Invalid TF Connect credentials" "M_FORBIDDEN"), w') /\
    rate_limit_cache w' !! client_ip
    = Some (default [] (rate_limit_cache w1 !! client_ip)
            ++ [clock w2 (ticks w2)])%list /\
    account_handler w' = account_handler w.
Proof.
  intros client_ip Erate Hcred Everify Hfalsy.
  pose proof (proj1 (keeps_credential_verifier sha256_hexdigest login_dict) w1) as Hrl.
  pose proof (proj2 (keeps_credential_verifier sha256_hexdigest login_dict) w1) as Hah.
  pose proof (proj1 (keeps_rate_limiter_host client_ip) w) as Hah1.
  rewrite Everify in Hrl, Hah. rewrite Erate in Hah1. cbn [snd] in Hrl, Hah, Hah1.
  exists (snd (_record_failed_attempt client_ip w2)). split; [|split].
  - enter_check_auth Erate Hcred Everify.
    rewrite Hfalsy. reflexivity.
  - rewrite record_failed_attempt_appends, Hrl. reflexivity.
  - rewrite record_failed_attempt_run. cbn. congruence.
Qed.

(** X8.  A login whose verified identity the domain gate rejects fails
    with [LoginError 403] and changes nothing after verification: no
    failure is recorded against the client and no account is created or
    updated. *)
Theorem check_auth_forbidden w w1 w2 username login_dict user_info :
  let client_ip := default "unknown" (login_dict !! "client_ip") in
  _check_rate_limit client_ip w = (Ok true, w1) ->
  truthy_str (login_dict !! "tf_token")
  || truthy_str (login_dict !! "session_id") = true ->
  credential_verifier sha256_hexdigest login_dict w1 = (Ok user_info, w2) ->
  truthy user_info = true ->
  _is_user_allowed str_lower (tf_config w2) user_info = Ok false ->
  check_auth str_lower sha256_hexdigest username "tf_connect" login_dict w
  = (Raise (LoginError 403 "User not authorized for this service" "M_FORBIDDEN"),
     w2) /\
  rate_limit_cache w2 = rate_limit_cache w1 /\
  account_handler w2 = account_handler w.
Proof.
  intros client_ip Erate Hcred Everify Htruthy Hgate.
  pose proof (proj1 (keeps_credential_verifier sha256_hexdigest login_dict) w1) as Hrl.
  pose proof (proj2 (keeps_credential_verifier sha256_hexdigest login_dict) w1) as Hah.
  pose proof (proj1 (keeps_rate_limiter_host client_ip) w) as Hah1.
  rewrite Everify in Hrl, Hah. rewrite Erate in Hah1. cbn [snd] in Hrl, Hah, Hah1.
  split; [|split; congruence].
  enter_check_auth Erate Hcred Everify.
  rewrite Htruthy. cbn [negb]. run. rewrite Hgate. reflexivity.
Qed.

(** X9.  A login whose verified identity is not a JSON object (a list,
    a number, a string) fails with [LoginError 500]: the attribute error
    of [user_info.get] is turned into the generic failure.  No failure is
    recorded and no account is touched. *)
Theorem check_auth_identity_not_object w w1 w2 username login_dict user_info :
  let client_ip := default "unknown" (login_dict !! "client_ip") in
  _check_rate_limit client_ip w = (Ok true, w1) ->
  truthy_str (login_dict !! "tf_token")
  || truthy_str (login_dict !! "session_id") = true ->
  credential_verifier sha256_hexdigest login_dict w1 = (Ok user_info, w2) ->
  truthy user_info = true ->
  (forall d, user_info <> PDict d) ->
  check_auth str_lower sha256_hexdigest username "tf_connect" login_dict w
  = (Raise (LoginError 500 "Authentication failed" "M_UNKNOWN"), w2) /\
  rate_limit_cache w2 = rate_limit_cache w1 /\
  account_handler w2 = account_handler w.
Proof.
  intros client_ip Erate Hcred Everify Htruthy Hnd.
  pose proof (proj1 (keeps_credential_verifier sha256_hexdigest login_dict) w1) as Hrl.
  pose proof (proj2 (keeps_credential_verifier sha256_hexdigest login_dict) w1) as Hah.
  pose proof (proj1 (keeps_rate_limiter_host client_ip) w) as Hah1.
  rewrite Everify in Hrl, Hah. rewrite Erate in Hah1. cbn [snd] in Hrl, Hah, Hah1.
  split; [|split; congruence].
  enter_check_auth Erate Hcred Everify.
  rewrite Htruthy. cbn [negb]. run.
  unfold _is_user_allowed, _map_tf_user_to_matrix.
  destruct user_info as [| | | | |d]; try (destruct (allowed_domains _); reflexivity).
  by destruct (Hnd d).
Qed.

(** X10.  A login that passes the rate check, whose credential verifies
    to an identity object that the domain gate admits and whose name is
    a string, succeeds: [check_auth] returns the account id derived from
    the name, cleaned and lowercased by [str.lower].  The account is
    created when its id is not in the store, and only then; no failure
    is recorded against the client. *)
Theorem check_auth_success w w1 w2 username login_dict
    (d : list (string * pyval)) (name : string) :
  let client_ip := default "unknown" (login_dict !! "client_ip") in
  let user_id :=
    "@" +:+ clean_username str_lower name +:+ ":" +:+ server_name (tf_config w2) in
  let ids := (hs_users (account_handler w)).*1 in
  _check_rate_limit client_ip w = (Ok true, w1) ->
  truthy_str (login_dict !! "tf_token")
  || truthy_str (login_dict !! "session_id") = true ->
  credential_verifier sha256_hexdigest login_dict w1 = (Ok (PDict d), w2) ->
  d <> [] ->
  _is_user_allowed str_lower (tf_config w2) (PDict d) = Ok true ->
  subject_name_of d = PStr name ->
  exists w',
    check_auth str_lower sha256_hexdigest username "tf_connect" login_dict w
    = (Ok (Some user_id), w') /\
    (hs_users (account_handler w')).*1
    = (if bool_decide (user_id ∈ ids) then ids
       else ids ++ [host_user_id (account_handler w) (localpart_of user_id)])%list /\
    rate_limit_cache w' = rate_limit_cache w1.
Proof.
  intros client_ip user_id ids Erate Hcred Everify Hne Hgate Hname.
  pose proof (proj1 (keeps_credential_verifier sha256_hexdigest login_dict) w1) as Hrl.
  pose proof (proj2 (keeps_credential_verifier sha256_hexdigest login_dict) w1) as Hah.
  pose proof (proj1 (keeps_rate_limiter_host client_ip) w) as Hah1.
  rewrite Everify in Hrl, Hah. rewrite Erate in Hah1. cbn [snd] in Hrl, Hah, Hah1.
  assert (Hid : _map_tf_user_to_matrix str_lower (tf_config w2) (PDict d) = Ok user_id).
  { unfold _map_tf_user_to_matrix. cbn [py_get].
    unfold subject_name_of in Hname. rewrite Hname. reflexivity. }
  assert (Htruthy : truthy (PDict d) = true) by (destruct d; [contradiction | reflexivity]).
  set (w3 := snd (_ensure_user_exists user_id (PDict d) w2)).
  set (w4 := snd (_cache_user_info user_id (PDict d) w3)).
  assert (E3 : _ensure_user_exists user_id (PDict d) w2 = (Ok tt, w3)).
  { subst w3. rewrite ensure_user_exists_run. reflexivity. }
  assert (E4 : _cache_user_info user_id (PDict d) w3 = (Ok tt, w4)).
  { subst w4. rewrite cache_user_info_run. reflexivity. }
  exists w4. split; [|split].
  - enter_check_auth Erate Hcred Everify.
    rewrite Htruthy. cbn [negb]. run. rewrite Hgate, Hid. cbn [negb].
    rewrite E3, E4. reflexivity.
  - subst w4. rewrite (proj2 (keeps_cache_user_info user_id (PDict d)) w3).
    subst w3. rewrite ensure_user_exists_run. cbn zeta. cbn [snd].
    rewrite Hah, Hah1. fold ids.
    destruct (bool_decide (user_id ∈ ids)); cbn [account_handler set_account_handler hs_users].
    + apply rename_account_keys.
    + rewrite fmap_app. reflexivity.
  - subst w4. rewrite (proj1 (keeps_cache_user_info user_id (PDict d)) w3).
    subst w3. rewrite (keeps_ensure_user_exists user_id (PDict d) w2). exact Hrl.
Qed.

End OrchestratorSteps.

(** ** Session verifier *)

(** X11.  [_verify_session] never raises, and the only identity it ever
    returns is the [user_info] of the stored record: the result is
    either absent or that value. *)
Theorem verify_session_result w sid :
  fst (_verify_session sid w) = Ok PNone \/
  exists d, stored_session w sid = PDict d /\
            fst (_verify_session sid w) = Ok (default PNone (assoc "user_info" d)).
Proof.
  rewrite verify_session_run. cbn zeta.
  destruct (truthy (stored_session w sid)); cbn [negb]; [|by left].
  destruct (stored_session w sid) as [| | | | |d] eqn:Hsd; cbn [py_get]; try by left.
  destruct (as_number _); [|by left].
  destruct (_ >? _); [by left|]. right. eauto.
Qed.

(** X12.  A session that is unknown, or whose record is empty, is not an
    object, or carries a [created_at] that is not a number, verifies to
    absent, and nothing is deleted from either store. *)
Theorem verify_session_unknown_or_malformed w sid :
  truthy (stored_session w sid) = false \/
  (forall d, stored_session w sid <> PDict d) \/
  (exists d, stored_session w sid = PDict d /\
             forall z, as_number (default (PNum 0) (assoc "created_at" d)) <> Ok z) ->
  fst (_verify_session sid w) = Ok PNone /\
  pending_sessions (snd (_verify_session sid w)) = pending_sessions w /\
  kv <$> redis_client (snd (_verify_session sid w)) = kv <$> redis_client w.
Proof.
  intros H. rewrite verify_session_run. cbn zeta.
  assert (Hk : forall t n,
             pending_sessions
               (set_ticks n (after_redis_command (set_trace t w)))
             = pending_sessions w /\
             kv <$> redis_client
                      (set_ticks n (after_redis_command (set_trace t w)))
             = kv <$> redis_client w /\
             pending_sessions (after_redis_command (set_trace t w))
             = pending_sessions w /\
             kv <$> redis_client (after_redis_command (set_trace t w))
             = kv <$> redis_client w).
  { intros t n. unfold after_redis_command. cbn [redis_client set_trace].
    destruct (redis_client w) eqn:Hr;
      cbn [redis_client pending_sessions set_redis_client set_ticks set_trace];
      rewrite ?Hr; repeat split; reflexivity. }
  destruct (Hk (trace w ++ [EvVerifySession sid])%list (S (ticks w)))
    as (Hp1 & Hr1 & Hp0 & Hr0).
  destruct (truthy (stored_session w sid)) eqn:Ht; cbn [negb];
    [|split; [reflexivity | split; assumption]].
  destruct H as [H | [H | (d & Hd & Hnum)]]; [discriminate | |].
  - destruct (stored_session w sid) as [| | | | |d]; cbn [py_get];
      try (split; [reflexivity | split; assumption]).
    by destruct (H d).
  - rewrite Hd. cbn [py_get].
    destruct (as_number _) as [z|] eqn:Hz; [by destruct (Hnum z)|].
    split; [reflexivity | split; assumption].
Qed.



(** ** Token verifier and token cache *)

Section TokenVerifier.

Variable sha256_hexdigest : string -> string.

Lemma cache_token_run w token user_info :
  _cache_token sha256_hexdigest token user_info w =
    (Ok tt,
     match redis_client w with
     | Some r =>
         set_redis_client
           (Some {| kv := if next_command_fails r then kv r
                          else <["token:" +:+ sha256_hexdigest token :=
                                  (user_info, token_cache_ttl (tf_config w))]>
                                 (kv r);
                    faults := tail (faults r) |}) w
     | None => w
     end).
Proof.
  unfold _cache_token. run.
  destruct (redis_client w) as [r|] eqn:Hr; [|reflexivity].
  unfold try_except, redis_setex, redis_command, next_command_fails.
  rewrite Hr. destruct (faults r) as [|[] fs]; reflexivity.
Qed.

Lemma verify_tf_token_run_miss w token :
  truthy (cached_token sha256_hexdigest w token) = false ->
  let w0 := after_redis_command
              (set_trace (trace w ++ [EvVerifyToken token; EvIdpGet token]) w) in
  _verify_tf_token sha256_hexdigest token w =
    match idp w token with
    | Response status (Some body) =>
        if status =? 200
        then (Ok body, snd (_cache_token sha256_hexdigest token body w0))
        else (Ok PNone, w0)
    | _ => (Ok PNone, w0)
    end.
Proof.
  intros Hmiss. unfold _verify_tf_token. run. rewrite get_cached_token_run.
  change (cached_token sha256_hexdigest (set_trace _ w) token)
    with (cached_token sha256_hexdigest w token).
  rewrite Hmiss. unfold requests_get. run.
  assert (Hw : forall t,
             idp (after_redis_command (set_trace t w)) = idp w /\
             set_trace (trace (after_redis_command (set_trace t w)) ++ [EvIdpGet token])
               (after_redis_command (set_trace t w))
             = after_redis_command (set_trace (t ++ [EvIdpGet token]) w)).
  { intros t. unfold after_redis_command. cbn [redis_client set_trace].
    destruct (redis_client w); split; reflexivity. }
  destruct (Hw (trace w ++ [EvVerifyToken token])%list) as [-> ->].
  rewrite <- app_assoc. cbn [app].
  destruct (idp w token) as [status [body|]| |]; run; try reflexivity.
  - destruct (status =? 200); [|by destruct (status =? 401)].
    unfold response_json. run. rewrite cache_token_run. reflexivity.
  - destruct (status =? 200); [reflexivity | by destruct (status =? 401)].
Qed.

(** X14.  On a cache miss, a 200 answer of the identity provider is the
    verified identity, whatever JSON value it is; it is written to the
    token cache under the digest of the token, with the configured TTL,
    unless that Redis command fails.  A 200 answer whose body is not
    JSON verifies to absent. *)
Theorem verify_tf_token_accepts_200 w token :
  truthy (cached_token sha256_hexdigest w token) = false ->
  (forall body,
     idp w token = Response 200 (Some body) ->
     fst (_verify_tf_token sha256_hexdigest token w) = Ok body /\
     trace (snd (_verify_tf_token sha256_hexdigest token w))
     = (trace w ++ [EvVerifyToken token; EvIdpGet token])%list /\
     (forall r, redis_client w = Some r ->
        next_command_fails (consume_fault r) = false ->
        exists r',
          redis_client (snd (_verify_tf_token sha256_hexdigest token w)) = Some r' /\
          kv r' !! ("token:" +:+ sha256_hexdigest token)
          = Some (body, token_cache_ttl (tf_config w)))) /\
  (idp w token = Response 200 None ->
   fst (_verify_tf_token sha256_hexdigest token w) = Ok PNone).
Proof.
  intros Hmiss. rewrite (verify_tf_token_run_miss w token Hmiss). cbn zeta. split.
  - intros body ->. cbn [Z.eqb Pos.eqb fst snd]. rewrite cache_token_run. cbn [snd].
    split; [reflexivity|]. unfold after_redis_command. cbn [redis_client set_trace].
    destruct (redis_client w) as [r|] eqn:Hr; run; rewrite ?Hr; run.
    + split; [reflexivity|]. intros r0 [= <-] Hok. unfold consume_fault in *.
      rewrite Hok. eexists. split; [reflexivity|]. cbn [kv].
      apply lookup_insert_eq.
    + split; [reflexivity | discriminate].
  - intros ->. reflexivity.
Qed.

(** X15.  With Redis answering, what [_cache_token] writes is what
    [_get_cached_token] reads back for the same token, and the write
    changes nothing for a token with a different digest. *)
Theorem token_cache_round_trip w r token user_info :
  redis_client w = Some r ->
  next_command_fails r = false ->
  next_command_fails (consume_fault r) = false ->
  let w1 := snd (_cache_token sha256_hexdigest token user_info w) in
  fst (_get_cached_token sha256_hexdigest token w1) = Ok user_info /\
  (forall other,
     sha256_hexdigest other <> sha256_hexdigest token ->
     fst (_get_cached_token sha256_hexdigest other w1)
     = Ok (default PNone (fst <$> kv r !! ("token:" +:+ sha256_hexdigest other)))).
Proof.
  intros Hr Hok1 Hok2 w1. subst w1.
  rewrite cache_token_run, Hr, Hok1. cbn [snd].
  split; [|intros other Hne]; rewrite get_cached_token_run; cbn [fst];
    unfold cached_token; cbn [redis_client set_redis_client];
    unfold consume_fault, next_command_fails in *; cbn [faults kv] in *;
    rewrite Hok2.
  - by rewrite lookup_insert_eq.
  - rewrite lookup_insert_ne; [reflexivity|].
    intros Heq. apply Hne. simpl in Heq. by injection Heq.
Qed.

(** X16.  A Redis command that fails does not fail the caller: the
    token write is dropped and the token read is a miss. *)
Theorem token_cache_redis_failure w r token user_info :
  redis_client w = Some r ->
  next_command_fails r = true ->
  _cache_token sha256_hexdigest token user_info w = (Ok tt, after_redis_command w) /\
  _get_cached_token sha256_hexdigest token w = (Ok PNone, after_redis_command w).
Proof.
  intros Hr Hfail. split.
  - rewrite cache_token_run, Hr, Hfail. unfold after_redis_command. by rewrite Hr.
  - rewrite get_cached_token_run. unfold cached_token. by rewrite Hr, Hfail.
Qed.


End TokenVerifier.

(** ** Account provisioner *)

(** X18.  For an id that is not in the store, [_ensure_user_exists]
    appends one account and leaves the existing ones as they are.  The
    new account has no password; its display name is the identity's
    [name], else its [doubleName], else ["Unknown"]; its email list holds
    the identity's email when there is one and is empty otherwise. *)
Theorem ensure_user_exists_creates w user_id (d : list (string * pyval)) :
  let h := account_handler w in
  user_id ∉ (hs_users h).*1 ->
  hs_users (account_handler (snd (_ensure_user_exists user_id (PDict d) w)))
  = (hs_users h ++
     [(host_user_id h (localpart_of user_id),
       {| acc_displayname := display_name d;
          acc_emails := match assoc "email" d with
                        | Some email => if truthy email then [email] else []
                        | None => []
                        end;
          acc_password := None |})])%list.
Proof.
  intros h Hnew. rewrite ensure_user_exists_run. cbn zeta. cbn [snd].
  fold h. rewrite bool_decide_eq_false_2 by exact Hnew.
  cbn [account_handler set_account_handler hs_users].
  destruct (assoc "email" d); reflexivity.
Qed.

(** X19.  For an id that is in the store, [_ensure_user_exists] creates
    nothing and changes only the display name of that account: its
    emails and password stay, and every other account is left as it
    is. *)
Theorem ensure_user_exists_updates w user_id (d : list (string * pyval)) :
  let users := hs_users (account_handler w) in
  let users' :=
    hs_users (account_handler (snd (_ensure_user_exists user_id (PDict d) w))) in
  user_id ∈ users.*1 ->
  length users' = length users /\
  forall (i : nat) (u : string * Account),
    users !! i = Some u ->
    exists u',
      users' !! i = Some u' /\
      fst u' = fst u /\
      acc_emails (snd u') = acc_emails (snd u) /\
      acc_password (snd u') = acc_password (snd u) /\
      acc_displayname (snd u')
      = (if String.eqb (fst u) user_id then display_name d
         else acc_displayname (snd u)).
Proof.
  intros users users' Hold. subst users'.
  rewrite ensure_user_exists_run. cbn zeta. cbn [snd].
  fold users. rewrite bool_decide_eq_true_2 by exact Hold.
  cbn [account_handler set_account_handler hs_users].
  split; [apply length_fmap|].
  intros i u Hu. rewrite list_lookup_fmap, Hu. cbn.
  eexists. split; [reflexivity|]. unfold rename_account.
  destruct (String.eqb u.1 user_id); auto.
Qed.

(** X20.  An identity that is not a JSON object makes
    [_ensure_user_exists] raise the attribute error of [user_info.get]
    to its caller, after the existence check and before any account is
    created or renamed. *)
Theorem ensure_user_exists_not_object w user_id user_info :
  (forall d, user_info <> PDict d) ->
  _ensure_user_exists user_id user_info w
  = (Raise AttributeError,
     set_trace (trace w ++ [EvCheckUserExists user_id]) w).
Proof.
  intros Hnd. unfold _ensure_user_exists, check_user_exists, display_name_of.
  run. destruct user_info as [| | | | |d];
    try (destruct (bool_decide _); reflexivity).
  by destruct (Hnd d).
Qed.

(** ** Profile cache *)

(** X21.  [_cache_user_info] never raises and writes the profile to
    exactly one place.  When the Redis write succeeds the profile is in
    Redis under [user:<id>] with [user_cache_ttl], and the in-process
    cache is untouched; when there is no client or the write fails the
    profile is in the in-process cache, stamped with the time of the
    call, and the Redis keys are untouched. *)
Theorem cache_user_info_one_store w user_id user_info :
  let w' := snd (_cache_user_info user_id user_info w) in
  let now := clock w (ticks w) in
  fst (_cache_user_info user_id user_info w) = Ok tt /\
  (forall r, redis_client w = Some r -> next_command_fails r = false ->
     user_cache w' = user_cache w /\
     exists r', redis_client w' = Some r' /\
       kv r' = <["user:" +:+ user_id :=
                  (PDict [("user_info", user_info); ("cached_at", PNum now)],
                   user_cache_ttl (tf_config w))]> (kv r)) /\
  ((redis_client w = None \/
    exists r, redis_client w = Some r /\ next_command_fails r = true) ->
   user_cache w' = <[user_id := (user_info, now)]> (user_cache w) /\
   kv <$> redis_client w' = kv <$> redis_client w).
Proof.
  intros w' now. subst w'. rewrite cache_user_info_run. cbn zeta. cbn [fst snd].
  split; [reflexivity|]. split.
  - intros r Hr Hok. rewrite Hr, Hok. run. eauto.
  - intros [Hr | (r & Hr & Hfail)].
    + rewrite Hr. run. by rewrite ?Hr.
    + rewrite Hr, Hfail. run. by rewrite ?Hr.
Qed.

(** ** Identity mapper: normal form of account ids *)

Lemma ascii_lower_char_idempotent c :
  ascii_lower_char (ascii_lower_char c) = ascii_lower_char c.
Proof. destruct c as [[] [] [] [] [] [] [] []]; reflexivity. Qed.

Lemma ascii_lower_idempotent s : ascii_lower (ascii_lower s) = ascii_lower s.
Proof.
  induction s as [|c s IH]; [reflexivity|].
  cbn [ascii_lower]. by rewrite ascii_lower_char_idempotent, IH.
Qed.

Lemma ascii_lower_char_separator c a :
  a = "."%char \/ a = "@"%char \/ a = ":"%char ->
  Ascii.eqb (ascii_lower_char c) a = Ascii.eqb c a.
Proof.
  intros [-> | [-> | ->]]; destruct c as [[] [] [] [] [] [] [] []]; reflexivity.
Qed.

(** [ascii_lower] has the properties assumed of [str.lower]. *)
Lemma ascii_lower_laws : str_lower_laws ascii_lower.
Proof.
  split.
  - intros s. by rewrite ascii_lower_idempotent.
  - apply ascii_lower_idempotent.
  - intros a s Ha. induction s as [|c s IH]; [reflexivity|].
    cbn [ascii_lower occurs]. by rewrite ascii_lower_char_separator, IH.
Qed.

(** The two replacements of [_map_tf_user_to_matrix], on one character. *)
Lemma replace_char_facts c :
  let f := fun c : ascii =>
    (if Ascii.eqb (if Ascii.eqb c "." then "_" else c) "@"
     then "_" else (if Ascii.eqb c "." then "_" else c))%char in
  f (f c) = f c /\
  f (ascii_lower_char c) = ascii_lower_char (f c) /\
  f (if Ascii.eqb c "." then "_" else c)%char = f c /\
  f (if Ascii.eqb c "@" then "_" else c)%char = f c /\
  Ascii.eqb (f c) "." = false /\
  Ascii.eqb (f c) "@" = false /\
  Ascii.eqb (f c) ":" = Ascii.eqb c ":".
Proof. destruct c as [[] [] [] [] [] [] [] []]; repeat split; reflexivity. Qed.

Lemma replace_chars_stable n :
  let f := fun n => replace_char "@" "_" (replace_char "." "_" n) in
  f (f n) = f n /\
  f (ascii_lower n) = ascii_lower (f n) /\
  f (replace_char "." "_" n) = f n /\
  f (replace_char "@" "_" n) = f n /\
  occurs "." (f n) = false /\
  occurs "@" (f n) = false /\
  occurs ":" (f n) = occurs ":" n.
Proof.
  cbn zeta.
  induction n as [|c n (IH1 & IH2 & IH3 & IH4 & IH5 & IH6 & IH7)];
    [repeat split; reflexivity|].
  destruct (replace_char_facts c) as (F1 & F2 & F3 & F4 & F5 & F6 & F7).
  cbn zeta in *. cbn [ascii_lower replace_char occurs].
  rewrite F1, F2, F3, F4, F5, F6, F7, IH1, IH2, IH3, IH4, IH5, IH6, IH7.
  repeat split; reflexivity.
Qed.

Lemma clean_username_stable str_lower n :
  str_lower_laws str_lower ->
  clean_username str_lower (ascii_lower n) = clean_username str_lower n /\
  clean_username str_lower (clean_username ascii_lower n)
  = clean_username str_lower n /\
  occurs "." (clean_username str_lower n) = false /\
  occurs "@" (clean_username str_lower n) = false /\
  ascii_lower (clean_username str_lower n) = clean_username str_lower n /\
  occurs ":" (clean_username str_lower n) = occurs ":" n.
Proof.
  intros [La Lb Lc].
  destruct (replace_chars_stable n) as (S1 & S2 & _ & _ & S5 & S6 & S7).
  destruct (replace_chars_stable (replace_char "@" "_" (replace_char "." "_" n)))
    as (_ & S2' & _).
  cbn zeta in *. unfold clean_username.
  rewrite S2', S2, S1, !La, !Lc, S5, S6, S7, Lb by auto.
  repeat split; reflexivity.
Qed.

Lemma clean_username_punctuation str_lower n :
  clean_username str_lower (replace_char "." "_" n) = clean_username str_lower n /\
  clean_username str_lower (replace_char "@" "_" n) = clean_username str_lower n.
Proof.
  destruct (replace_chars_stable n) as (_ & _ & S3 & S4 & _).
  cbn zeta in *. unfold clean_username. by rewrite S3, S4.
Qed.

Lemma length_string_app (a b : string) :
  String.length (a +:+ b) = (String.length a + String.length b)%nat.
Proof. induction a as [|c a IH]; [reflexivity|]. simpl. by rewrite IH. Qed.

Lemma string_app_cancel_r (a b t : string) : a +:+ t = b +:+ t -> a = b.
Proof.
  revert b. induction a as [|c a IH]; intros [|c' b] H; simpl in H.
  - reflexivity.
  - apply (f_equal String.length) in H.
    rewrite ?length_string_app in H. simpl in H.
    rewrite ?length_string_app in H. lia.
  - apply (f_equal String.length) in H.
    rewrite ?length_string_app in H. simpl in H.
    rewrite ?length_string_app in H. lia.
  - injection H as -> H. f_equal. by apply IH.
Qed.

Lemma map_tf_user_to_matrix_named str_lower c (d : list (string * pyval)) n :
  subject_name_of d = PStr n ->
  _map_tf_user_to_matrix str_lower c (PDict d)
  = Ok ("@" +:+ clean_username str_lower n +:+ ":" +:+ server_name c).
Proof.
  unfold subject_name_of, _map_tf_user_to_matrix. cbn [py_get].
  intros ->. reflexivity.
Qed.

(** X22.  Two identities with string names get the same account id
    exactly when their names, cleaned of ['.'] and ['@'] and lowercased
    by [str.lower], are the same text. *)
Theorem map_tf_user_to_matrix_same_id (str_lower : string -> string) c
    (d1 d2 : list (string * pyval)) n1 n2 :
  subject_name_of d1 = PStr n1 ->
  subject_name_of d2 = PStr n2 ->
  _map_tf_user_to_matrix str_lower c (PDict d1)
  = _map_tf_user_to_matrix str_lower c (PDict d2)
  <-> clean_username str_lower n1 = clean_username str_lower n2.
Proof.
  intros H1 H2.
  rewrite (map_tf_user_to_matrix_named str_lower c d1 n1 H1),
    (map_tf_user_to_matrix_named str_lower c d2 n2 H2).
  split.
  - intros H. simpl in H. injection H as H.
    change ("" +:+ clean_username str_lower n1 +:+ ":" +:+ server_name c)
      with (clean_username str_lower n1 +:+ ":" +:+ server_name c) in H.
    change ("" +:+ clean_username str_lower n2 +:+ ":" +:+ server_name c)
      with (clean_username str_lower n2 +:+ ":" +:+ server_name c) in H.
    by apply string_app_cancel_r in H.
  - by intros ->.
Qed.

(** X23.  Names that differ only by the case of ASCII letters, or by a
    ['.'] or ['@'] where the other has ['_'], are given one and the same
    account id; the local part of an account id holds no ['.'], no ['@']
    and no upper-case ASCII letter. *)
Theorem map_tf_user_to_matrix_collides (str_lower : string -> string) c
    (d1 d2 : list (string * pyval)) n1 n2 :
  str_lower_laws str_lower ->
  subject_name_of d1 = PStr n1 ->
  subject_name_of d2 = PStr n2 ->
  n2 = ascii_lower n1 \/ n2 = replace_char "." "_" n1 \/
  n2 = replace_char "@" "_" n1 \/ n2 = clean_username ascii_lower n1 ->
  _map_tf_user_to_matrix str_lower c (PDict d1)
  = _map_tf_user_to_matrix str_lower c (PDict d2) /\
  exists localpart,
    _map_tf_user_to_matrix str_lower c (PDict d1)
    = Ok ("@" +:+ localpart +:+ ":" +:+ server_name c) /\
    occurs "." localpart = false /\
    occurs "@" localpart = false /\
    ascii_lower localpart = localpart.
Proof.
  intros L H1 H2 Hn.
  rewrite (map_tf_user_to_matrix_named str_lower c d1 n1 H1),
    (map_tf_user_to_matrix_named str_lower c d2 n2 H2).
  destruct (clean_username_stable str_lower n1 L) as (S1 & S2 & S5 & S6 & S7 & _).
  destruct (clean_username_punctuation str_lower n1) as (S3 & S4).
  split.
  - destruct Hn as [-> | [-> | [-> | ->]]]; congruence.
  - exists (clean_username str_lower n1). auto.
Qed.

Lemma first_item_split_on_app sep (x rest : string) :
  first_item (split_on sep (x +:+ String sep rest)) = first_item (split_on sep x).
Proof.
  unfold first_item. induction x as [|c x IH]; simpl.
  - by rewrite Ascii.eqb_refl.
  - destruct (Ascii.eqb c sep); [reflexivity|].
    pose proof (split_on_nonempty sep (x +:+ String sep rest)) as N1.
    pose proof (split_on_nonempty sep x) as N2.
    destruct (split_on sep (x +:+ String sep rest)) as [|a l]; [contradiction|].
    destruct (split_on sep x) as [|a' l']; [contradiction|].
    cbn in *. by rewrite IH.
Qed.

Lemma localpart_of_account_id (local server : string) :
  localpart_of ("@" +:+ local +:+ ":" +:+ server)
  = first_item (split_on ":" local).
Proof.
  unfold localpart_of.
  change ("@" +:+ local +:+ ":" +:+ server)
    with (String "@" (local +:+ String ":" server)).
  cbn [split_on]. change (Ascii.eqb "@" ":") with false. cbv iota.
  pose proof (split_on_nonempty ":" (local +:+ String ":" server)) as N.
  pose proof (first_item_split_on_app ":" local server) as H.
  destruct (split_on ":" (local +:+ String ":" server)) as [|a l]; [contradiction|].
  exact H.
Qed.

(** X24.  The local part the provisioner registers is the cleaned and
    lowercased name up to its first [':'].  So for a name without [':'],
    on a host whose server name is the configured one, the host creates
    the account under exactly the id the mapper produced. *)
Theorem mapped_id_localpart (str_lower : string -> string) c h
    (d : list (string * pyval)) n :
  subject_name_of d = PStr n ->
  exists user_id,
    _map_tf_user_to_matrix str_lower c (PDict d) = Ok user_id /\
    localpart_of user_id = first_item (split_on ":" (clean_username str_lower n)) /\
    (str_lower_laws str_lower ->
     occurs ":" n = false -> hs_name h = server_name c ->
     localpart_of user_id = clean_username str_lower n /\
     host_user_id h (localpart_of user_id) = user_id).
Proof.
  intros Hn. eexists. split; [by apply map_tf_user_to_matrix_named|].
  rewrite localpart_of_account_id. split; [reflexivity|].
  intros L Hcolon Hhs.
  destruct (clean_username_stable str_lower n L) as (_ & _ & _ & _ & _ & S8).
  rewrite split_on_absent by (by rewrite S8).
  split; [reflexivity|]. unfold host_user_id, first_item. cbn [head from_option id].
  by rewrite Hhs.
Qed.

(** ** Domain gate: edge cases *)


(** X26.  With a non-empty allow-list: an email without ['@'] is
    compared whole, lowercased by [str.lower], with the list; an email
    that is a falsy value is rejected like a missing one; an email that
    is truthy but not a string raises the attribute error of
    [email.split]. *)
Theorem is_user_allowed_email_edge_cases (str_lower : string -> string) c
    (d : list (string * pyval)) :
  allowed_domains c <> [] ->
  (forall e, assoc "email" d = Some (PStr e) -> e <> "" ->
     occurs "@" e = false ->
     _is_user_allowed str_lower c (PDict d)
     = Ok (bool_decide (str_lower e ∈ allowed_domains c))) /\
  (forall v, assoc "email" d = Some v -> truthy v = false ->
     _is_user_allowed str_lower c (PDict d) = Ok false) /\
  (forall v, assoc "email" d = Some v -> truthy v = true ->
     (forall s, v <> PStr s) ->
     _is_user_allowed str_lower c (PDict d) = Raise AttributeError).
Proof.
  unfold _is_user_allowed. intros Hne.
  destruct (allowed_domains c) as [|a l] eqn:Ha; [contradiction|].
  cbn [py_get]. repeat split.
  - intros e -> He Hat. cbn [from_option id truthy as_str].
    destruct (String.eqb_spec e ""); [contradiction|]. cbn [negb].
    rewrite split_on_absent by exact Hat. reflexivity.
  - intros v -> Hv. cbn [from_option id]. by rewrite Hv.
  - intros v -> Hv Hns. cbn [from_option id]. rewrite Hv. cbn [negb].
    destruct v; try reflexivity. by destruct (Hns s).
Qed.

(** ** Instances of the further properties *)

Ltac solve_windows_nonempty :=
  unfold windows_nonempty;
  match goal with |- ?P => apply (bool_decide_unpack P) end;
  vm_compute; exact I.

Lemma rate_limit_isolated_witness :
  fst (_check_rate_limit "1.2.3.4" stale_world)
  = fst (_check_rate_limit "1.2.3.4" two_client_world) /\
  rate_limit_cache (snd (_record_failed_attempt "5.6.7.8" stale_world)) !! "1.2.3.4"
  = rate_limit_cache stale_world !! "1.2.3.4".
Proof.
  destruct (rate_limit_isolated stale_world two_client_world "1.2.3.4"
              ltac:(solve_windows_nonempty) ltac:(solve_windows_nonempty)
              eq_refl eq_refl ltac:(vm_compute; reflexivity)) as [H1 H2].
  split; [exact H1 | apply H2; discriminate].
Defined.

Lemma rate_limit_forgets_witness :
  fst (_check_rate_limit "1.2.3.4" expired_window_world) = Ok true /\
  rate_limit_cache (snd (_check_rate_limit "1.2.3.4" expired_window_world))
    !! "1.2.3.4" = None.
Proof.
  apply (rate_limit_forgets expired_window_world "1.2.3.4" [0; 1000]).
  - solve_windows_nonempty.
  - vm_compute. reflexivity.
  - intros H. vm_compute in H. discriminate H.
  - vm_compute. reflexivity.
Defined.

Lemma rate_limit_under_limit_witness :
  fst (_check_rate_limit "1.2.3.4" stale_world) = Ok true.
Proof.
  apply (rate_limit_under_limit stale_world "1.2.3.4").
  - solve_windows_nonempty.
  - vm_compute. reflexivity.
Defined.

Lemma check_auth_raises_login_error_witness :
  exists code msg errcode,
    LoginError 401 "Invalid TF Connect credentials" "M_FORBIDDEN"
    = LoginError code msg errcode /\
    (code = 429 \/ code = 400 \/ code = 401 \/ code = 403 \/ code = 500).
Proof.
  apply (check_auth_raises_login_error ascii_lower demo_digest (demo_world demo_config 1000)
           "" "tf_connect" login_with_bad_token _
           (snd (check_auth ascii_lower demo_digest "" "tf_connect" login_with_bad_token
                   (demo_world demo_config 1000)))).
  vm_compute. reflexivity.
Defined.

Lemma check_auth_locked_out_witness :
  exists w',
    check_auth ascii_lower demo_digest "" "tf_connect" login_with_token
      (demo_world locked_config 1000)
    = (Raise (LoginError 429 "Too many login attempts" "M_LIMIT_EXCEEDED"), w') /\
    trace w' = [].
Proof.
  apply (check_auth_locked_out ascii_lower demo_digest (demo_world locked_config 1000)
           "" login_with_token).
  - solve_windows_nonempty.
  - vm_compute. discriminate.
Defined.

Lemma check_auth_keeps_windows_nonempty_witness :
  windows_nonempty
    (rate_limit_cache
       (snd (check_auth ascii_lower demo_digest "" "tf_connect" login_with_bad_token
               stale_world))).
Proof.
  apply (check_auth_keeps_windows_nonempty ascii_lower demo_digest stale_world ""
           "tf_connect" login_with_bad_token).
  solve_windows_nonempty.
Defined.

Lemma check_auth_invalid_credential_witness :
  exists w',
    check_auth ascii_lower demo_digest "" "tf_connect" login_with_bad_token
      (demo_world demo_config 1000)
    = (Raise (LoginError 401 "Invalid TF Connect credentials" "M_FORBIDDEN"), w') /\
    rate_limit_cache w' !! "1.2.3.4" = Some [1000].
Proof.
  destruct (check_auth_invalid_credential ascii_lower demo_digest
              (demo_world demo_config 1000)
              (snd (_check_rate_limit "1.2.3.4" (demo_world demo_config 1000)))
              (snd (credential_verifier demo_digest login_with_bad_token
                      (snd (_check_rate_limit "1.2.3.4"
                              (demo_world demo_config 1000)))))
              "" login_with_bad_token PNone
              ltac:(vm_compute; reflexivity) ltac:(vm_compute; reflexivity)
              ltac:(vm_compute; reflexivity) eq_refl)
    as (w' & H1 & H2 & _).
  exists w'. split; [exact H1|].
  etransitivity; [exact H2|]. vm_compute. reflexivity.
Defined.

Lemma check_auth_forbidden_witness :
  fst (check_auth ascii_lower demo_digest "" "tf_connect" login_with_token
         (demo_world other_config 1000))
  = Raise (LoginError 403 "User not authorized for this service" "M_FORBIDDEN").
Proof.
  destruct (check_auth_forbidden ascii_lower demo_digest
              (demo_world other_config 1000)
              (snd (_check_rate_limit "1.2.3.4" (demo_world other_config 1000)))
              (snd (credential_verifier demo_digest login_with_token
                      (snd (_check_rate_limit "1.2.3.4"
                              (demo_world other_config 1000)))))
              "" login_with_token jo_doe
              ltac:(vm_compute; reflexivity) ltac:(vm_compute; reflexivity)
              ltac:(vm_compute; reflexivity) eq_refl
              ltac:(vm_compute; reflexivity))
    as (H1 & _).
  rewrite H1. reflexivity.
Defined.

Lemma check_auth_identity_not_object_witness :
  fst (check_auth ascii_lower demo_digest "" "tf_connect" login_with_session
         list_identity_world)
  = Raise (LoginError 500 "Authentication failed" "M_UNKNOWN").
Proof.
  destruct (check_auth_identity_not_object ascii_lower demo_digest
              list_identity_world
              (snd (_check_rate_limit "1.2.3.4" list_identity_world))
              (snd (credential_verifier demo_digest login_with_session
                      (snd (_check_rate_limit "1.2.3.4" list_identity_world))))
              "" login_with_session (PList [PStr "Jo.Doe"])
              ltac:(vm_compute; reflexivity) ltac:(vm_compute; reflexivity)
              ltac:(vm_compute; reflexivity) eq_refl
              ltac:(discriminate))
    as (H1 & _).
  rewrite H1. reflexivity.
Defined.

Lemma check_auth_success_witness :
  exists w',
    check_auth ascii_lower demo_digest "" "tf_connect" login_with_token
      (demo_world demo_config 1000)
    = (Ok (Some "@jo_doe:example.org"), w') /\
    (hs_users (account_handler w')).*1 = ["@jo_doe:example.org"].
Proof.
  destruct (check_auth_success ascii_lower demo_digest
              (demo_world demo_config 1000)
              (snd (_check_rate_limit "1.2.3.4" (demo_world demo_config 1000)))
              (snd (credential_verifier demo_digest login_with_token
                      (snd (_check_rate_limit "1.2.3.4"
                              (demo_world demo_config 1000)))))
              "" login_with_token
              [("doubleName", PStr "Jo.Doe"); ("email", PStr "jo@allowed.com")]
              "Jo.Doe"
              ltac:(vm_compute; reflexivity) ltac:(vm_compute; reflexivity)
              ltac:(vm_compute; reflexivity) ltac:(discriminate)
              ltac:(vm_compute; reflexivity) eq_refl)
    as (w' & H1 & H2 & _).
  exists w'. split; [exact H1|].
  etransitivity; [exact H2|]. vm_compute. reflexivity.
Defined.

Lemma verify_session_unknown_or_malformed_witness :
  fst (_verify_session "no-such-session" (session_world open_config 1000))
  = Ok PNone /\
  pending_sessions
    (snd (_verify_session "no-such-session" (session_world open_config 1000)))
  = pending_sessions (session_world open_config 1000).
Proof.
  destruct (verify_session_unknown_or_malformed (session_world open_config 1000)
              "no-such-session" ltac:(left; vm_compute; reflexivity))
    as (H1 & H2 & _).
  split; assumption.
Defined.


Lemma verify_tf_token_accepts_200_witness :
  fst (_verify_tf_token demo_digest "good-token" redis_world) = Ok jo_doe /\
  trace (snd (_verify_tf_token demo_digest "good-token" redis_world))
  = [EvVerifyToken "good-token"; EvIdpGet "good-token"] /\
  exists r',
    redis_client (snd (_verify_tf_token demo_digest "good-token" redis_world))
    = Some r' /\
    kv r' !! "token:digest-of-good-token" = Some (jo_doe, 3600).
Proof.
  destruct (proj1 (verify_tf_token_accepts_200 demo_digest redis_world "good-token"
                     ltac:(vm_compute; reflexivity))
              jo_doe ltac:(vm_compute; reflexivity))
    as (H1 & H2 & H3).
  split; [exact H1|]. split; [exact H2|].
  exact (H3 {| kv := ∅; faults := [] |} eq_refl eq_refl).
Defined.

Lemma token_cache_round_trip_witness :
  fst (_get_cached_token demo_digest "good-token"
         (snd (_cache_token demo_digest "good-token" jo_doe redis_world)))
  = Ok jo_doe.
Proof.
  exact (proj1 (token_cache_round_trip demo_digest redis_world
                  {| kv := ∅; faults := [] |} "good-token" jo_doe
                  eq_refl eq_refl eq_refl)).
Defined.

Lemma token_cache_redis_failure_witness :
  fst (_cache_token demo_digest "good-token" jo_doe failing_redis_world) = Ok tt /\
  fst (_get_cached_token demo_digest "good-token" failing_redis_world) = Ok PNone.
Proof.
  destruct (token_cache_redis_failure demo_digest failing_redis_world
              {| kv := ∅; faults := [true] |} "good-token" jo_doe
              eq_refl eq_refl) as [H1 H2].
  rewrite H1, H2. split; reflexivity.
Defined.


Lemma ensure_user_exists_creates_witness :
  hs_users (account_handler
              (snd (_ensure_user_exists "@jo_doe:example.org" jo_doe
                      (demo_world demo_config 1000))))
  = [("@jo_doe:example.org",
      {| acc_displayname := PStr "Jo.Doe";
         acc_emails := [PStr "jo@allowed.com"];
         acc_password := None |})].
Proof.
  exact (ensure_user_exists_creates (demo_world demo_config 1000)
           "@jo_doe:example.org"
           [("doubleName", PStr "Jo.Doe"); ("email", PStr "jo@allowed.com")]
           ltac:(vm_compute; intros H; inversion H)).
Defined.

Lemma ensure_user_exists_updates_witness :
  exists u',
    hs_users (account_handler
                (snd (_ensure_user_exists "@jo_doe:example.org" jo_doe
                        returning_user_world))) !! 1%nat = Some u' /\
    fst u' = "@jo_doe:example.org" /\
    acc_emails (snd u') = [PStr "jo@old.example"] /\
    acc_password (snd u') = Some "secret" /\
    acc_displayname (snd u') = PStr "Jo.Doe".
Proof.
  exact (proj2 (ensure_user_exists_updates returning_user_world
                  "@jo_doe:example.org"
                  [("doubleName", PStr "Jo.Doe"); ("email", PStr "jo@allowed.com")]
                  ltac:(vm_compute; right; left))
           1%nat _ eq_refl).
Defined.

Lemma ensure_user_exists_not_object_witness :
  fst (_ensure_user_exists "@jo_doe:example.org" (PList [PStr "Jo.Doe"])
         (demo_world demo_config 1000))
  = Raise AttributeError.
Proof.
  rewrite (ensure_user_exists_not_object (demo_world demo_config 1000)
             "@jo_doe:example.org" (PList [PStr "Jo.Doe"]) ltac:(discriminate)).
  reflexivity.
Defined.

Lemma cache_user_info_one_store_witness :
  user_cache (snd (_cache_user_info "@jo_doe:example.org" jo_doe failing_redis_world))
  = <["@jo_doe:example.org" := (jo_doe, 1000)]> ∅ /\
  user_cache (snd (_cache_user_info "@jo_doe:example.org" jo_doe redis_world)) = ∅.
Proof.
  split.
  - destruct (proj2 (proj2 (cache_user_info_one_store failing_redis_world
                              "@jo_doe:example.org" jo_doe))
                ltac:(right; eexists; split; reflexivity)) as [H _].
    exact H.
  - destruct (proj1 (proj2 (cache_user_info_one_store redis_world
                              "@jo_doe:example.org" jo_doe))
                _ eq_refl eq_refl) as [H _].
    exact H.
Defined.

Lemma map_tf_user_to_matrix_same_id_witness :
  _map_tf_user_to_matrix ascii_lower demo_config (PDict [("doubleName", PStr "Jo.Doe")])
  = _map_tf_user_to_matrix ascii_lower demo_config (PDict [("username", PStr "jo@doe")]).
Proof.
  apply (proj2 (map_tf_user_to_matrix_same_id ascii_lower demo_config
                  [("doubleName", PStr "Jo.Doe")] [("username", PStr "jo@doe")]
                  "Jo.Doe" "jo@doe" eq_refl eq_refl)).
  reflexivity.
Defined.

Lemma map_tf_user_to_matrix_collides_witness :
  _map_tf_user_to_matrix ascii_lower demo_config (PDict [("doubleName", PStr "Jo.Doe")])
  = _map_tf_user_to_matrix ascii_lower demo_config (PDict [("doubleName", PStr "jo.doe")]).
Proof.
  exact (proj1 (map_tf_user_to_matrix_collides ascii_lower demo_config
                  [("doubleName", PStr "Jo.Doe")] [("doubleName", PStr "jo.doe")]
                  "Jo.Doe" "jo.doe" ascii_lower_laws eq_refl eq_refl
                  (or_introl eq_refl))).
Defined.

Lemma mapped_id_localpart_witness :
  exists user_id,
    _map_tf_user_to_matrix ascii_lower demo_config jo_doe = Ok user_id /\
    localpart_of user_id = "jo_doe" /\
    host_user_id (account_handler (demo_world demo_config 1000))
      (localpart_of user_id) = user_id.
Proof.
  destruct (mapped_id_localpart ascii_lower demo_config
              (account_handler (demo_world demo_config 1000))
              [("doubleName", PStr "Jo.Doe"); ("email", PStr "jo@allowed.com")]
              "Jo.Doe" eq_refl) as (uid & H1 & _ & H3).
  destruct (H3 ascii_lower_laws eq_refl eq_refl) as [H4 H5].
  exists uid. split; [exact H1|]. split; [exact H4 | exact H5].
Defined.


Lemma is_user_allowed_email_edge_cases_witness :
  _is_user_allowed ascii_lower demo_config (PDict [("email", PStr "Allowed.Com")]) = Ok true /\
  _is_user_allowed ascii_lower demo_config (PDict [("email", PNum 0)]) = Ok false /\
  _is_user_allowed ascii_lower demo_config (PDict [("email", PNum 7)]) = Raise AttributeError.
Proof.
  split; [|split].
  - exact (proj1 (is_user_allowed_email_edge_cases ascii_lower demo_config
                    [("email", PStr "Allowed.Com")] ltac:(discriminate))
             "Allowed.Com" eq_refl ltac:(discriminate) eq_refl).
  - exact (proj1 (proj2 (is_user_allowed_email_edge_cases ascii_lower demo_config
                           [("email", PNum 0)] ltac:(discriminate)))
             (PNum 0) eq_refl eq_refl).
  - exact (proj2 (proj2 (is_user_allowed_email_edge_cases ascii_lower demo_config
                           [("email", PNum 7)] ltac:(discriminate)))
             (PNum 7) eq_refl eq_refl ltac:(discriminate)).
Defined.
